(** * Dust Container Designer: configuration state machine and
      physical-properties engine (core-app.js)

    A shallow embedding of the validation, commit, history and
    mass-properties code of [core-app.js], and of the older validator and
    the older history routine that the repository keeps beside it, followed
    by the properties the specification states about them.

    Numbers.  The configuration fields are JavaScript numbers.  They are
    embedded as exact rationals [Q]: comparisons, [Math.max], [Math.min] and
    [Math.floor] are then the mathematical ones, and [NaN] and the infinities
    are outside the model.  Rounding of binary64 arithmetic is not
    modelled, so nothing is stated here that holds only up to rounding (a
    move and its opposite cancelling, a weighted mean lying between its
    terms), and the statements about volumes are for sizes whose products
    neither underflow nor overflow. *)

From Stdlib Require Import QArith Qround Qminmax Qabs Lqa.
From Stdlib Require Import ZArith Lia Bool List String Ascii.
Import ListNotations.

Local Open Scope Q_scope.
Local Open Scope string_scope.

(* ------------------------------------------------------------------ *)
(** ** Helpers *)
(* ------------------------------------------------------------------ *)

(** The JavaScript comparison operators on numbers. *)
Definition js_le (a b : Q) : bool := Qle_bool a b.
Definition js_ge (a b : Q) : bool := Qle_bool b a.
Definition js_lt (a b : Q) : bool := negb (Qle_bool b a).
Definition js_gt (a b : Q) : bool := negb (Qle_bool a b).

Definition Math_max (a b : Q) : Q := Qmax a b.
Definition Math_min (a b : Q) : Q := Qmin a b.
Definition Math_floor (a : Q) : Q := inject_Z (Qfloor a).

(** [Math.PI] is the binary64 number 3.141592653589793, that is exactly
    884279719003555 / 2^48. *)
Definition Math_PI : Q := 884279719003555 # 281474976710656.

(** [mmToM(mm)]: [mm / 1000]. *)
Definition mmToM (mm : Q) : Q := mm / 1000.

(* ------------------------------------------------------------------ *)
(** ** Configuration and default state *)
(* ------------------------------------------------------------------ *)

Record Config : Type := mkConfig {
  (* main geometry *)
  L_rect : Q;
  x_hopper : Q;
  H : Q;
  W : Q;
  t_wall : Q;
  (* frame & pockets *)
  include_frame : bool;
  H_frame : Q;
  W_pocket : Q;
  H_pocket : Q;
  S_pocket : Q;
  unlock_pockets : bool;
  (* lid *)
  include_lid : bool;
  t_lid : Q;
  r_hole : Q;
  lid_edge_length : Q;
  lid_offset_from_hopper_edge : Q;
  advanced_lid_material : bool;
  rho_lid : Q;
  (* materials & dust *)
  shell_material : string;
  rho_shell : Q;
  rho_dust : Q;
  humidity : Q;
  fill_percentage : Q;
  (* view & movement *)
  snap_to_grid : bool;
  move_step_mm : Q;
  show_reference_cube : bool;
  show_cog_empty : bool;
  show_cog_filled : bool;
  (* export *)
  export_lid_with_container : bool
}.

Definition DEFAULTS : Config := {|
  L_rect := 1400;
  x_hopper := 700;
  H := 900;
  W := 1300;
  t_wall := 5;
  include_frame := true;
  H_frame := 100;
  W_pocket := 230;
  H_pocket := 91;
  S_pocket := 142;
  unlock_pockets := false;
  include_lid := false;
  t_lid := 3;
  r_hole := 200;
  lid_edge_length := 100;
  lid_offset_from_hopper_edge := 500;
  advanced_lid_material := false;
  rho_lid := 7850;
  shell_material := "steel";
  rho_shell := 7850;
  rho_dust := 1850;
  humidity := 0;
  fill_percentage := 80;
  snap_to_grid := true;
  move_step_mm := 50;
  show_reference_cube := false;
  show_cog_empty := true;
  show_cog_filled := true;
  export_lid_with_container := false
|}.

(** Field assignment [c.f = v].  A configuration is a value here, so an
    assignment returns the updated record. *)
Definition set_L_rect (v : Q) (c : Config) : Config :=
  mkConfig v (x_hopper c) (H c) (W c) (t_wall c)
    (include_frame c) (H_frame c) (W_pocket c) (H_pocket c) (S_pocket c) (unlock_pockets c)
    (include_lid c) (t_lid c) (r_hole c) (lid_edge_length c) (lid_offset_from_hopper_edge c) (advanced_lid_material c) (rho_lid c)
    (shell_material c) (rho_shell c) (rho_dust c) (humidity c) (fill_percentage c)
    (snap_to_grid c) (move_step_mm c) (show_reference_cube c) (show_cog_empty c) (show_cog_filled c)
    (export_lid_with_container c).

Definition set_x_hopper (v : Q) (c : Config) : Config :=
  mkConfig (L_rect c) v (H c) (W c) (t_wall c)
    (include_frame c) (H_frame c) (W_pocket c) (H_pocket c) (S_pocket c) (unlock_pockets c)
    (include_lid c) (t_lid c) (r_hole c) (lid_edge_length c) (lid_offset_from_hopper_edge c) (advanced_lid_material c) (rho_lid c)
    (shell_material c) (rho_shell c) (rho_dust c) (humidity c) (fill_percentage c)
    (snap_to_grid c) (move_step_mm c) (show_reference_cube c) (show_cog_empty c) (show_cog_filled c)
    (export_lid_with_container c).

Definition set_H (v : Q) (c : Config) : Config :=
  mkConfig (L_rect c) (x_hopper c) v (W c) (t_wall c)
    (include_frame c) (H_frame c) (W_pocket c) (H_pocket c) (S_pocket c) (unlock_pockets c)
    (include_lid c) (t_lid c) (r_hole c) (lid_edge_length c) (lid_offset_from_hopper_edge c) (advanced_lid_material c) (rho_lid c)
    (shell_material c) (rho_shell c) (rho_dust c) (humidity c) (fill_percentage c)
    (snap_to_grid c) (move_step_mm c) (show_reference_cube c) (show_cog_empty c) (show_cog_filled c)
    (export_lid_with_container c).

Definition set_W (v : Q) (c : Config) : Config :=
  mkConfig (L_rect c) (x_hopper c) (H c) v (t_wall c)
    (include_frame c) (H_frame c) (W_pocket c) (H_pocket c) (S_pocket c) (unlock_pockets c)
    (include_lid c) (t_lid c) (r_hole c) (lid_edge_length c) (lid_offset_from_hopper_edge c) (advanced_lid_material c) (rho_lid c)
    (shell_material c) (rho_shell c) (rho_dust c) (humidity c) (fill_percentage c)
    (snap_to_grid c) (move_step_mm c) (show_reference_cube c) (show_cog_empty c) (show_cog_filled c)
    (export_lid_with_container c).

Definition set_t_wall (v : Q) (c : Config) : Config :=
  mkConfig (L_rect c) (x_hopper c) (H c) (W c) v
    (include_frame c) (H_frame c) (W_pocket c) (H_pocket c) (S_pocket c) (unlock_pockets c)
    (include_lid c) (t_lid c) (r_hole c) (lid_edge_length c) (lid_offset_from_hopper_edge c) (advanced_lid_material c) (rho_lid c)
    (shell_material c) (rho_shell c) (rho_dust c) (humidity c) (fill_percentage c)
    (snap_to_grid c) (move_step_mm c) (show_reference_cube c) (show_cog_empty c) (show_cog_filled c)
    (export_lid_with_container c).

Definition set_include_frame (v : bool) (c : Config) : Config :=
  mkConfig (L_rect c) (x_hopper c) (H c) (W c) (t_wall c)
    v (H_frame c) (W_pocket c) (H_pocket c) (S_pocket c) (unlock_pockets c)
    (include_lid c) (t_lid c) (r_hole c) (lid_edge_length c) (lid_offset_from_hopper_edge c) (advanced_lid_material c) (rho_lid c)
    (shell_material c) (rho_shell c) (rho_dust c) (humidity c) (fill_percentage c)
    (snap_to_grid c) (move_step_mm c) (show_reference_cube c) (show_cog_empty c) (show_cog_filled c)
    (export_lid_with_container c).

Definition set_H_frame (v : Q) (c : Config) : Config :=
  mkConfig (L_rect c) (x_hopper c) (H c) (W c) (t_wall c)
    (include_frame c) v (W_pocket c) (H_pocket c) (S_pocket c) (unlock_pockets c)
    (include_lid c) (t_lid c) (r_hole c) (lid_edge_length c) (lid_offset_from_hopper_edge c) (advanced_lid_material c) (rho_lid c)
    (shell_material c) (rho_shell c) (rho_dust c) (humidity c) (fill_percentage c)
    (snap_to_grid c) (move_step_mm c) (show_reference_cube c) (show_cog_empty c) (show_cog_filled c)
    (export_lid_with_container c).

Definition set_W_pocket (v : Q) (c : Config) : Config :=
  mkConfig (L_rect c) (x_hopper c) (H c) (W c) (t_wall c)
    (include_frame c) (H_frame c) v (H_pocket c) (S_pocket c) (unlock_pockets c)
    (include_lid c) (t_lid c) (r_hole c) (lid_edge_length c) (lid_offset_from_hopper_edge c) (advanced_lid_material c) (rho_lid c)
    (shell_material c) (rho_shell c) (rho_dust c) (humidity c) (fill_percentage c)
    (snap_to_grid c) (move_step_mm c) (show_reference_cube c) (show_cog_empty c) (show_cog_filled c)
    (export_lid_with_container c).

Definition set_H_pocket (v : Q) (c : Config) : Config :=
  mkConfig (L_rect c) (x_hopper c) (H c) (W c) (t_wall c)
    (include_frame c) (H_frame c) (W_pocket c) v (S_pocket c) (unlock_pockets c)
    (include_lid c) (t_lid c) (r_hole c) (lid_edge_length c) (lid_offset_from_hopper_edge c) (advanced_lid_material c) (rho_lid c)
    (shell_material c) (rho_shell c) (rho_dust c) (humidity c) (fill_percentage c)
    (snap_to_grid c) (move_step_mm c) (show_reference_cube c) (show_cog_empty c) (show_cog_filled c)
    (export_lid_with_container c).

Definition set_S_pocket (v : Q) (c : Config) : Config :=
  mkConfig (L_rect c) (x_hopper c) (H c) (W c) (t_wall c)
    (include_frame c) (H_frame c) (W_pocket c) (H_pocket c) v (unlock_pockets c)
    (include_lid c) (t_lid c) (r_hole c) (lid_edge_length c) (lid_offset_from_hopper_edge c) (advanced_lid_material c) (rho_lid c)
    (shell_material c) (rho_shell c) (rho_dust c) (humidity c) (fill_percentage c)
    (snap_to_grid c) (move_step_mm c) (show_reference_cube c) (show_cog_empty c) (show_cog_filled c)
    (export_lid_with_container c).

Definition set_unlock_pockets (v : bool) (c : Config) : Config :=
  mkConfig (L_rect c) (x_hopper c) (H c) (W c) (t_wall c)
    (include_frame c) (H_frame c) (W_pocket c) (H_pocket c) (S_pocket c) v
    (include_lid c) (t_lid c) (r_hole c) (lid_edge_length c) (lid_offset_from_hopper_edge c) (advanced_lid_material c) (rho_lid c)
    (shell_material c) (rho_shell c) (rho_dust c) (humidity c) (fill_percentage c)
    (snap_to_grid c) (move_step_mm c) (show_reference_cube c) (show_cog_empty c) (show_cog_filled c)
    (export_lid_with_container c).

Definition set_include_lid (v : bool) (c : Config) : Config :=
  mkConfig (L_rect c) (x_hopper c) (H c) (W c) (t_wall c)
    (include_frame c) (H_frame c) (W_pocket c) (H_pocket c) (S_pocket c) (unlock_pockets c)
    v (t_lid c) (r_hole c) (lid_edge_length c) (lid_offset_from_hopper_edge c) (advanced_lid_material c) (rho_lid c)
    (shell_material c) (rho_shell c) (rho_dust c) (humidity c) (fill_percentage c)
    (snap_to_grid c) (move_step_mm c) (show_reference_cube c) (show_cog_empty c) (show_cog_filled c)
    (export_lid_with_container c).

Definition set_t_lid (v : Q) (c : Config) : Config :=
  mkConfig (L_rect c) (x_hopper c) (H c) (W c) (t_wall c)
    (include_frame c) (H_frame c) (W_pocket c) (H_pocket c) (S_pocket c) (unlock_pockets c)
    (include_lid c) v (r_hole c) (lid_edge_length c) (lid_offset_from_hopper_edge c) (advanced_lid_material c) (rho_lid c)
    (shell_material c) (rho_shell c) (rho_dust c) (humidity c) (fill_percentage c)
    (snap_to_grid c) (move_step_mm c) (show_reference_cube c) (show_cog_empty c) (show_cog_filled c)
    (export_lid_with_container c).

Definition set_r_hole (v : Q) (c : Config) : Config :=
  mkConfig (L_rect c) (x_hopper c) (H c) (W c) (t_wall c)
    (include_frame c) (H_frame c) (W_pocket c) (H_pocket c) (S_pocket c) (unlock_pockets c)
    (include_lid c) (t_lid c) v (lid_edge_length c) (lid_offset_from_hopper_edge c) (advanced_lid_material c) (rho_lid c)
    (shell_material c) (rho_shell c) (rho_dust c) (humidity c) (fill_percentage c)
    (snap_to_grid c) (move_step_mm c) (show_reference_cube c) (show_cog_empty c) (show_cog_filled c)
    (export_lid_with_container c).

Definition set_lid_edge_length (v : Q) (c : Config) : Config :=
  mkConfig (L_rect c) (x_hopper c) (H c) (W c) (t_wall c)
    (include_frame c) (H_frame c) (W_pocket c) (H_pocket c) (S_pocket c) (unlock_pockets c)
    (include_lid c) (t_lid c) (r_hole c) v (lid_offset_from_hopper_edge c) (advanced_lid_material c) (rho_lid c)
    (shell_material c) (rho_shell c) (rho_dust c) (humidity c) (fill_percentage c)
    (snap_to_grid c) (move_step_mm c) (show_reference_cube c) (show_cog_empty c) (show_cog_filled c)
    (export_lid_with_container c).

Definition set_lid_offset_from_hopper_edge (v : Q) (c : Config) : Config :=
  mkConfig (L_rect c) (x_hopper c) (H c) (W c) (t_wall c)
    (include_frame c) (H_frame c) (W_pocket c) (H_pocket c) (S_pocket c) (unlock_pockets c)
    (include_lid c) (t_lid c) (r_hole c) (lid_edge_length c) v (advanced_lid_material c) (rho_lid c)
    (shell_material c) (rho_shell c) (rho_dust c) (humidity c) (fill_percentage c)
    (snap_to_grid c) (move_step_mm c) (show_reference_cube c) (show_cog_empty c) (show_cog_filled c)
    (export_lid_with_container c).

Definition set_advanced_lid_material (v : bool) (c : Config) : Config :=
  mkConfig (L_rect c) (x_hopper c) (H c) (W c) (t_wall c)
    (include_frame c) (H_frame c) (W_pocket c) (H_pocket c) (S_pocket c) (unlock_pockets c)
    (include_lid c) (t_lid c) (r_hole c) (lid_edge_length c) (lid_offset_from_hopper_edge c) v (rho_lid c)
    (shell_material c) (rho_shell c) (rho_dust c) (humidity c) (fill_percentage c)
    (snap_to_grid c) (move_step_mm c) (show_reference_cube c) (show_cog_empty c) (show_cog_filled c)
    (export_lid_with_container c).

Definition set_rho_lid (v : Q) (c : Config) : Config :=
  mkConfig (L_rect c) (x_hopper c) (H c) (W c) (t_wall c)
    (include_frame c) (H_frame c) (W_pocket c) (H_pocket c) (S_pocket c) (unlock_pockets c)
    (include_lid c) (t_lid c) (r_hole c) (lid_edge_length c) (lid_offset_from_hopper_edge c) (advanced_lid_material c) v
    (shell_material c) (rho_shell c) (rho_dust c) (humidity c) (fill_percentage c)
    (snap_to_grid c) (move_step_mm c) (show_reference_cube c) (show_cog_empty c) (show_cog_filled c)
    (export_lid_with_container c).

Definition set_shell_material (v : string) (c : Config) : Config :=
  mkConfig (L_rect c) (x_hopper c) (H c) (W c) (t_wall c)
    (include_frame c) (H_frame c) (W_pocket c) (H_pocket c) (S_pocket c) (unlock_pockets c)
    (include_lid c) (t_lid c) (r_hole c) (lid_edge_length c) (lid_offset_from_hopper_edge c) (advanced_lid_material c) (rho_lid c)
    v (rho_shell c) (rho_dust c) (humidity c) (fill_percentage c)
    (snap_to_grid c) (move_step_mm c) (show_reference_cube c) (show_cog_empty c) (show_cog_filled c)
    (export_lid_with_container c).

Definition set_rho_shell (v : Q) (c : Config) : Config :=
  mkConfig (L_rect c) (x_hopper c) (H c) (W c) (t_wall c)
    (include_frame c) (H_frame c) (W_pocket c) (H_pocket c) (S_pocket c) (unlock_pockets c)
    (include_lid c) (t_lid c) (r_hole c) (lid_edge_length c) (lid_offset_from_hopper_edge c) (advanced_lid_material c) (rho_lid c)
    (shell_material c) v (rho_dust c) (humidity c) (fill_percentage c)
    (snap_to_grid c) (move_step_mm c) (show_reference_cube c) (show_cog_empty c) (show_cog_filled c)
    (export_lid_with_container c).

Definition set_rho_dust (v : Q) (c : Config) : Config :=
  mkConfig (L_rect c) (x_hopper c) (H c) (W c) (t_wall c)
    (include_frame c) (H_frame c) (W_pocket c) (H_pocket c) (S_pocket c) (unlock_pockets c)
    (include_lid c) (t_lid c) (r_hole c) (lid_edge_length c) (lid_offset_from_hopper_edge c) (advanced_lid_material c) (rho_lid c)
    (shell_material c) (rho_shell c) v (humidity c) (fill_percentage c)
    (snap_to_grid c) (move_step_mm c) (show_reference_cube c) (show_cog_empty c) (show_cog_filled c)
    (export_lid_with_container c).

Definition set_humidity (v : Q) (c : Config) : Config :=
  mkConfig (L_rect c) (x_hopper c) (H c) (W c) (t_wall c)
    (include_frame c) (H_frame c) (W_pocket c) (H_pocket c) (S_pocket c) (unlock_pockets c)
    (include_lid c) (t_lid c) (r_hole c) (lid_edge_length c) (lid_offset_from_hopper_edge c) (advanced_lid_material c) (rho_lid c)
    (shell_material c) (rho_shell c) (rho_dust c) v (fill_percentage c)
    (snap_to_grid c) (move_step_mm c) (show_reference_cube c) (show_cog_empty c) (show_cog_filled c)
    (export_lid_with_container c).

Definition set_fill_percentage (v : Q) (c : Config) : Config :=
  mkConfig (L_rect c) (x_hopper c) (H c) (W c) (t_wall c)
    (include_frame c) (H_frame c) (W_pocket c) (H_pocket c) (S_pocket c) (unlock_pockets c)
    (include_lid c) (t_lid c) (r_hole c) (lid_edge_length c) (lid_offset_from_hopper_edge c) (advanced_lid_material c) (rho_lid c)
    (shell_material c) (rho_shell c) (rho_dust c) (humidity c) v
    (snap_to_grid c) (move_step_mm c) (show_reference_cube c) (show_cog_empty c) (show_cog_filled c)
    (export_lid_with_container c).

Definition set_snap_to_grid (v : bool) (c : Config) : Config :=
  mkConfig (L_rect c) (x_hopper c) (H c) (W c) (t_wall c)
    (include_frame c) (H_frame c) (W_pocket c) (H_pocket c) (S_pocket c) (unlock_pockets c)
    (include_lid c) (t_lid c) (r_hole c) (lid_edge_length c) (lid_offset_from_hopper_edge c) (advanced_lid_material c) (rho_lid c)
    (shell_material c) (rho_shell c) (rho_dust c) (humidity c) (fill_percentage c)
    v (move_step_mm c) (show_reference_cube c) (show_cog_empty c) (show_cog_filled c)
    (export_lid_with_container c).

Definition set_move_step_mm (v : Q) (c : Config) : Config :=
  mkConfig (L_rect c) (x_hopper c) (H c) (W c) (t_wall c)
    (include_frame c) (H_frame c) (W_pocket c) (H_pocket c) (S_pocket c) (unlock_pockets c)
    (include_lid c) (t_lid c) (r_hole c) (lid_edge_length c) (lid_offset_from_hopper_edge c) (advanced_lid_material c) (rho_lid c)
    (shell_material c) (rho_shell c) (rho_dust c) (humidity c) (fill_percentage c)
    (snap_to_grid c) v (show_reference_cube c) (show_cog_empty c) (show_cog_filled c)
    (export_lid_with_container c).

Definition set_show_reference_cube (v : bool) (c : Config) : Config :=
  mkConfig (L_rect c) (x_hopper c) (H c) (W c) (t_wall c)
    (include_frame c) (H_frame c) (W_pocket c) (H_pocket c) (S_pocket c) (unlock_pockets c)
    (include_lid c) (t_lid c) (r_hole c) (lid_edge_length c) (lid_offset_from_hopper_edge c) (advanced_lid_material c) (rho_lid c)
    (shell_material c) (rho_shell c) (rho_dust c) (humidity c) (fill_percentage c)
    (snap_to_grid c) (move_step_mm c) v (show_cog_empty c) (show_cog_filled c)
    (export_lid_with_container c).

Definition set_show_cog_empty (v : bool) (c : Config) : Config :=
  mkConfig (L_rect c) (x_hopper c) (H c) (W c) (t_wall c)
    (include_frame c) (H_frame c) (W_pocket c) (H_pocket c) (S_pocket c) (unlock_pockets c)
    (include_lid c) (t_lid c) (r_hole c) (lid_edge_length c) (lid_offset_from_hopper_edge c) (advanced_lid_material c) (rho_lid c)
    (shell_material c) (rho_shell c) (rho_dust c) (humidity c) (fill_percentage c)
    (snap_to_grid c) (move_step_mm c) (show_reference_cube c) v (show_cog_filled c)
    (export_lid_with_container c).

Definition set_show_cog_filled (v : bool) (c : Config) : Config :=
  mkConfig (L_rect c) (x_hopper c) (H c) (W c) (t_wall c)
    (include_frame c) (H_frame c) (W_pocket c) (H_pocket c) (S_pocket c) (unlock_pockets c)
    (include_lid c) (t_lid c) (r_hole c) (lid_edge_length c) (lid_offset_from_hopper_edge c) (advanced_lid_material c) (rho_lid c)
    (shell_material c) (rho_shell c) (rho_dust c) (humidity c) (fill_percentage c)
    (snap_to_grid c) (move_step_mm c) (show_reference_cube c) (show_cog_empty c) v
    (export_lid_with_container c).

Definition set_export_lid_with_container (v : bool) (c : Config) : Config :=
  mkConfig (L_rect c) (x_hopper c) (H c) (W c) (t_wall c)
    (include_frame c) (H_frame c) (W_pocket c) (H_pocket c) (S_pocket c) (unlock_pockets c)
    (include_lid c) (t_lid c) (r_hole c) (lid_edge_length c) (lid_offset_from_hopper_edge c) (advanced_lid_material c) (rho_lid c)
    (shell_material c) (rho_shell c) (rho_dust c) (humidity c) (fill_percentage c)
    (snap_to_grid c) (move_step_mm c) (show_reference_cube c) (show_cog_empty c) (show_cog_filled c)
    v.

(** [deepClone(obj)]: [JSON.parse(JSON.stringify(obj))].  On a record of
    finite numbers, booleans and strings the round trip returns an equal
    record; as values carry no identity here, the copy is the value. *)
Definition deepClone (obj : Config) : Config := obj.

(* ------------------------------------------------------------------ *)
(** ** Validation *)
(* ------------------------------------------------------------------ *)

(** The result of [validateCandidate]: [{ ok: true }], or
    [{ ok: false, message, fix, fields }].  The member [fix] (here [fix_],
    as the source's name is a keyword) is a closure without arguments that
    assigns to fields of the candidate it has captured; it is embedded as
    the thunk that returns the candidate after these assignments. *)
Inductive ValidationResult : Type :=
| Valid
| Invalid (message : string) (fix_ : unit -> Config) (fields : list string).

Definition ok (v : ValidationResult) : bool :=
  match v with Valid => true | Invalid _ _ _ => false end.

(** The pocket test and the lid test sit in the source inside
    [if (c.include_frame)] and [if (c.include_lid)]; the blocks hold only
    the test, so each is written here as one conjunction. *)
Definition validateCandidate (c : Config) : ValidationResult :=
  (* Basic >0 checks *)
  if js_le (L_rect c) 0 || js_le (H c) 0 || js_le (W c) 0 || js_le (t_wall c) 0 then
    Invalid
      "All main dimensions (L_rect, H, W, t_wall) must be > 0."
      (fun _ =>
         let c := set_L_rect (Math_max (L_rect c) 100) c in
         let c := set_H (Math_max (H c) 100) c in
         let c := set_W (Math_max (W c) 100) c in
         let c := set_t_wall (Math_max (t_wall c) 2) c in
         c)
      ["input-l-rect"; "input-h"; "input-w"; "input-t-wall"]
  else
  (* Wall thickness vs cavity *)
  let maxWall := Math_min (W c) (L_rect c) / 4 in
  if js_ge (2 * t_wall c) (W c) || js_ge (2 * t_wall c) (L_rect c) then
    Invalid
      "Wall thickness too large relative to width/length – inner cavity would collapse."
      (fun _ => set_t_wall (Math_max 2 (Math_floor maxWall)) c)
      ["input-t-wall"]
  else
  (* Hopper length can't exceed rectangular length *)
  if js_lt (x_hopper c) 0 || js_gt (x_hopper c) (L_rect c) then
    Invalid
      "x_hopper must be between 0 and L_rect (wedge cannot be longer than the rectangular part)."
      (fun _ => set_x_hopper (Math_max 0 (Math_min (x_hopper c) (L_rect c))) c)
      ["input-x-hopper"; "input-l-rect"]
  else
  (* Frame height should not exceed container *)
  if include_frame c && js_ge (H_frame c) (H c) then
    Invalid
      "Frame height H_frame should be smaller than container height H."
      (fun _ => set_H_frame (Math_max 30 (Math_floor (H c / 3))) c)
      ["input-h-frame"; "input-h"]
  else
  (* Pockets vs width *)
  let minMargin := 20 in
  let neededWidth := 2 * W_pocket c + S_pocket c + 2 * minMargin in
  if include_frame c && js_gt neededWidth (W c) then
    Invalid
      "Forklift pockets + spacing need more width than available. Reduce pocket width/spacing or increase container width."
      (fun _ =>
         let available := W c - 2 * minMargin in
         let newPocket := Math_max 50 (Math_floor ((available - S_pocket c) / 2)) in
         set_W_pocket newPocket c)
      ["input-w-pocket"; "input-s-pocket"; "input-w"]
  else
  (* Lid hole + edge must fit *)
  let maxRByW := W c / 2 - lid_edge_length c in
  let maxRByL := L_rect c / 2 - lid_edge_length c in
  let maxR := Math_max 20 (Math_min maxRByW maxRByL) in
  if include_lid c && js_gt (r_hole c) maxR then
    Invalid
      "Lid hole radius too large; ring edge would become negative."
      (fun _ => set_r_hole maxR c)
      ["input-r-hole"; "input-lid-edge"]
  else
    Valid.

(* ------------------------------------------------------------------ *)
(** ** Engine state: globals, effects on collaborators *)
(* ------------------------------------------------------------------ *)

(** What the engine asks of its collaborators (DOM, renderer, storage,
    log), recorded in call order. *)
Inductive Effect : Type :=
| MarkInvalid (fields : list string)
| ShowModal (message fixText : string)
| CloseModal
| ApplyStateToInputs
| RebuildGeometry
| UpdateOutputs
| SaveState (persisted : Config)
| UpdateUndoButtons
| Log (msg : string)
| Alert (msg : string)
| ConsoleWarn (msg : string).

(** The two closures handed to [showModal] capture [v] and [candidate] of
    the [commitState] call that opened the modal. *)
Record Pending : Type := mkPending {
  pend_v : ValidationResult;
  pend_candidate : Config
}.

(** The module's global variables: [state], [lastValidState], [undoStack],
    [redoStack], [pendingFixIgnore]; and the effects issued so far.  The
    arrays are lists in index order: [push] appends, [shift] drops index 0. *)
Record Engine : Type := mkEngine {
  state : Config;
  lastValidState : Config;
  undoStack : list Config;
  redoStack : list Config;
  pendingFixIgnore : option Pending;
  trace : list Effect
}.

Definition Action : Type := Engine -> Engine.

Definition seq_action (a b : Action) : Action := fun e => b (a e).
Notation "a >> b" := (seq_action a b) (at level 61, left associativity).

Definition set_state (c : Config) : Action := fun e =>
  mkEngine c (lastValidState e) (undoStack e) (redoStack e) (pendingFixIgnore e) (trace e).
Definition set_lastValidState (c : Config) : Action := fun e =>
  mkEngine (state e) c (undoStack e) (redoStack e) (pendingFixIgnore e) (trace e).
Definition set_undoStack (l : list Config) : Action := fun e =>
  mkEngine (state e) (lastValidState e) l (redoStack e) (pendingFixIgnore e) (trace e).
Definition set_redoStack (l : list Config) : Action := fun e =>
  mkEngine (state e) (lastValidState e) (undoStack e) l (pendingFixIgnore e) (trace e).
Definition set_pendingFixIgnore (p : option Pending) : Action := fun e =>
  mkEngine (state e) (lastValidState e) (undoStack e) (redoStack e) p (trace e).
Definition emit (x : Effect) : Action := fun e =>
  mkEngine (state e) (lastValidState e) (undoStack e) (redoStack e) (pendingFixIgnore e)
    (trace e ++ [x]).

(** Array primitives. *)
Definition push {A} (l : list A) (x : A) : list A := l ++ [x].
Definition shift {A} (l : list A) : list A := tl l.
Definition pop {A} (l : list A) : option (A * list A) :=
  match rev l with
  | [] => None
  | x :: r => Some (x, rev r)
  end.

(** Collaborator calls. *)
Definition log (msg : string) : Action := emit (Log msg).
Definition markInvalid (fields : list string) : Action := emit (MarkInvalid fields).
Definition applyStateToInputs : Action := emit ApplyStateToInputs.
Definition rebuildGeometry : Action := emit RebuildGeometry.
Definition updateOutputs : Action := emit UpdateOutputs.
Definition updateUndoButtons : Action := emit UpdateUndoButtons.
Definition saveState : Action := fun e => emit (SaveState (state e)) e.

(** [showModal], with the modal element present in the page. *)
Definition showModal (message fixText : string) (p : Pending) : Action :=
  emit (ShowModal message fixText) >> set_pendingFixIgnore (Some p).
Definition closeModal : Action :=
  emit CloseModal >> set_pendingFixIgnore None.

(* ------------------------------------------------------------------ *)
(** ** Undo/redo *)
(* ------------------------------------------------------------------ *)

Definition pushUndo : Action :=
  (fun e => set_undoStack (push (undoStack e) (deepClone (state e))) e) >>
  (fun e => if (50 <? List.length (undoStack e))%nat
            then set_undoStack (shift (undoStack e)) e else e) >>
  set_redoStack [] >>
  updateUndoButtons.

Definition undo : Action := fun e =>
  match pop (undoStack e) with
  | None => e
  | Some (prev, rest) =>
      (set_undoStack rest >>
       (fun e => set_redoStack (push (redoStack e) (deepClone (state e))) e) >>
       set_state prev >>
       (fun e => set_lastValidState (deepClone (state e)) e) >>
       applyStateToInputs >> rebuildGeometry >> updateOutputs >>
       saveState >> updateUndoButtons >> log "Undo.") e
  end.

Definition redo : Action := fun e =>
  match pop (redoStack e) with
  | None => e
  | Some (next, rest) =>
      (set_redoStack rest >>
       (fun e => set_undoStack (push (undoStack e) (deepClone (state e))) e) >>
       set_state next >>
       (fun e => set_lastValidState (deepClone (state e)) e) >>
       applyStateToInputs >> rebuildGeometry >> updateOutputs >>
       saveState >> updateUndoButtons >> log "Redo.") e
  end.

(* ------------------------------------------------------------------ *)
(** ** Commit *)
(* ------------------------------------------------------------------ *)

(** The Fix closure of [commitState]: [v.fix && v.fix()] assigns to the
    captured candidate, which then becomes [state]; [pushUndo] runs after
    that assignment. *)
Definition onFix (p : Pending) : Action :=
  let candidate :=
    match pend_v p with
    | Invalid _ f _ => f tt
    | Valid => pend_candidate p
    end in
  set_state candidate >>
  set_lastValidState (deepClone candidate) >>
  markInvalid [] >>
  pushUndo >>
  applyStateToInputs >> rebuildGeometry >> updateOutputs >>
  saveState >> log "Auto-fix applied.".

(** The Ignore closure of [commitState]. *)
Definition onIgnore (p : Pending) : Action :=
  (fun e => set_state (deepClone (lastValidState e)) e) >>
  applyStateToInputs >>
  markInvalid [] >>
  log "Invalid parameters ignored; geometry unchanged.".

Definition commitState (newState : Config) (msg : string) : Action :=
  let candidate := deepClone newState in
  let v := validateCandidate candidate in
  match v with
  | Invalid message _ fields =>
      markInvalid fields >>
      showModal message
        "Fix will auto-correct values. Ignore keeps the last valid geometry."
        (mkPending v candidate)
  | Valid =>
      markInvalid [] >>
      pushUndo >>
      set_state candidate >>
      set_lastValidState (deepClone candidate) >>
      applyStateToInputs >> rebuildGeometry >> updateOutputs >>
      saveState >>
      log (if String.eqb msg EmptyString then "Updated parameters." else msg)
  end.

(** The click handlers of the modal's two buttons, and of the reset button
    (with the confirmation accepted). *)
Definition clickFix : Action := fun e =>
  match pendingFixIgnore e with
  | Some p => closeModal (onFix p e)
  | None => closeModal e
  end.

Definition clickIgnore : Action := fun e =>
  match pendingFixIgnore e with
  | Some p => closeModal (onIgnore p e)
  | None => closeModal e
  end.

Definition resetDefaults : Action :=
  set_state (deepClone DEFAULTS) >>
  set_lastValidState (deepClone DEFAULTS) >>
  set_undoStack [] >>
  set_redoStack [] >>
  applyStateToInputs >> rebuildGeometry >> updateOutputs >>
  saveState >> updateUndoButtons >> log "Reset to defaults.".

(** Top-level operations of the engine, as the user triggers them. *)
Inductive Event : Type :=
| EvCommit (newState : Config) (msg : string)
| EvFix
| EvIgnore
| EvUndo
| EvRedo
| EvReset.

Definition step (e : Engine) (ev : Event) : Engine :=
  match ev with
  | EvCommit newState msg => commitState newState msg e
  | EvFix => clickFix e
  | EvIgnore => clickIgnore e
  | EvUndo => undo e
  | EvRedo => redo e
  | EvReset => resetDefaults e
  end.

Definition run (e : Engine) (evs : list Event) : Engine := fold_left step evs e.

(** The engine as the module leaves it before [loadState]: both
    configurations are the defaults and the stacks are empty. *)
Definition initial : Engine := mkEngine (deepClone DEFAULTS) (deepClone DEFAULTS) [] [] None [].

(* ------------------------------------------------------------------ *)
(** ** Calculations for volume, mass and centre of gravity *)
(* ------------------------------------------------------------------ *)

Record Point : Type := mkPoint { pt_x : Q; pt_y : Q; pt_z : Q }.

(** An entry [{ v, c }] of the component list; [c] may be [null]. *)
Record Component : Type := mkComponent { comp_v : Q; comp_c : option Point }.

Definition weightedCentroid (components : list Component) : option Point :=
  let acc :=
    fold_left
      (fun (a : Q * Q * Q * Q) (c : Component) =>
         let '(vx, vy, vz, vt) := a in
         match comp_c c with
         | None => a
         | Some p =>
             (vx + comp_v c * pt_x p, vy + comp_v c * pt_y p,
              vz + comp_v c * pt_z p, vt + comp_v c)
         end)
      components (0, 0, 0, 0) in
  let '(vx, vy, vz, vt) := acc in
  if js_le vt 0 then None
  else Some (mkPoint (vx / vt) (vy / vt) (vz / vt)).

(** The object [computeVolumesAndMasses] returns. *)
Record MassProperties : Type := mkMassProperties {
  V_internal : Q;
  V_fill : Q;
  m_shell : Q;
  m_lid : Q;
  m_dust : Q;
  m_total : Q;
  cog_empty : option Point;
  cog_filled : option Point
}.

(** The local constants of [computeVolumesAndMasses], each as a function of
    the [state] the routine reads. *)
Section Locals.
Variable s : Config.

Definition loc_L : Q := mmToM (L_rect s).
Definition loc_H : Q := mmToM (H s).
Definition loc_W : Q := mmToM (W s).
Definition loc_x : Q := mmToM (x_hopper s).
Definition loc_Hf : Q := mmToM (H_frame s).
Definition loc_t : Q := mmToM (t_wall s).

Definition L_in : Q := Math_max (1 # 1000) (loc_L - 2 * loc_t).
Definition W_in : Q := Math_max (1 # 1000) (loc_W - 2 * loc_t).
Definition H_in : Q := Math_max (1 # 1000) (loc_H - loc_t). (* open top *)

Definition x_in : Q := Math_max 0 (loc_x - loc_t).
Definition H_tri_in : Q := H_in.

Definition V_rect_in : Q := L_in * W_in * H_in.
Definition V_hopper_in : Q := (1 # 2) * x_in * H_tri_in * W_in.
Definition loc_V_internal : Q := V_rect_in + V_hopper_in.

Definition fillFrac : Q := Math_min 1 (Math_max 0 (fill_percentage s / 100)).
Definition loc_V_fill : Q := loc_V_internal * fillFrac.

Definition V_rect_out : Q := loc_L * loc_W * loc_H.
Definition V_hopper_out : Q :=
  if js_gt loc_x 0 then (1 # 2) * loc_x * loc_H * loc_W else 0.
Definition V_frame_out : Q :=
  if include_frame s then loc_L * loc_W * loc_Hf else 0.

Definition loc_Wp : Q := mmToM (W_pocket s).
Definition loc_Hp : Q := mmToM (H_pocket s).
Definition loc_Sp : Q := mmToM (S_pocket s).
Definition loc_minMargin : Q := mmToM 20.
Definition V_pockets : Q :=
  if include_frame s then
    let availableWidth := loc_W - 2 * loc_minMargin in
    if js_le (2 * loc_Wp + loc_Sp) (availableWidth + (1 # 1000000)) then
      let V_one := loc_L * loc_Wp * loc_Hp in
      2 * V_one
    else 0
  else 0.

Definition V_outer : Q := V_rect_out + V_hopper_out + V_frame_out.
Definition V_shell : Q := Math_max 0 (V_outer - loc_V_internal - V_pockets).

Definition rhoShell : Q := rho_shell s.
Definition rhoDust : Q := rho_dust s.
Definition rhoLid : Q := if advanced_lid_material s then rho_lid s else rhoShell.

Definition V_lid : Q :=
  if include_lid s then
    let tLid := mmToM (t_lid s) in
    let areaLid := loc_L * loc_W in
    let rHole := mmToM (r_hole s) in
    let areaHole := Math_PI * rHole * rHole in
    Math_max 0 ((areaLid - areaHole) * tLid)
  else 0.

Definition loc_m_shell : Q := V_shell * rhoShell.
Definition loc_m_lid : Q := V_lid * (if include_lid s then rhoLid else 0).
Definition loc_m_dust : Q := loc_V_fill * rhoDust.
Definition m_empty : Q := loc_m_shell + loc_m_lid.
Definition loc_m_total : Q := m_empty + loc_m_dust.

Definition c_rect : option Point := Some (mkPoint (loc_L / 2) 0 (loc_H / 2)).
Definition c_hopper : option Point :=
  if js_gt loc_x 0 then Some (mkPoint (- loc_x / 3) 0 (loc_H / 3)) else None.
Definition c_frame : option Point :=
  if include_frame s then Some (mkPoint (loc_L / 2) 0 (loc_Hf / 2)) else None.
Definition c_lid : option Point :=
  if include_lid s && js_gt V_lid 0
  then Some (mkPoint (loc_L / 2) 0 (loc_H + mmToM (t_lid s) / 2)) else None.

Definition compsEmpty : list Component :=
  (if js_gt V_rect_out 0 then [mkComponent V_rect_out c_rect] else []) ++
  (if js_gt V_hopper_out 0 then [mkComponent V_hopper_out c_hopper] else []) ++
  (if js_gt V_frame_out 0 then [mkComponent V_frame_out c_frame] else []) ++
  (if include_lid s && js_gt V_lid 0 then [mkComponent V_lid c_lid] else []).

Definition loc_cog_empty : option Point := weightedCentroid compsEmpty.

Definition cog_dust : option Point :=
  if js_gt loc_V_fill 0 && js_gt loc_V_internal 0 then
    let z_int := H_in / 2 in
    let z_dust := z_int * fillFrac in
    Some (mkPoint (loc_L / 2) 0 z_dust)
  else None.

Definition loc_cog_filled : option Point :=
  match loc_cog_empty, cog_dust with
  | Some ce, Some cd =>
      if js_gt loc_m_dust 0 && js_gt m_empty 0 then
        let M1 := m_empty in
        let M2 := loc_m_dust in
        Some (mkPoint ((M1 * pt_x ce + M2 * pt_x cd) / (M1 + M2))
                      ((M1 * pt_y ce + M2 * pt_y cd) / (M1 + M2))
                      ((M1 * pt_z ce + M2 * pt_z cd) / (M1 + M2)))
      else Some ce
  | Some ce, None => Some ce
  | None, _ => None
  end.

Definition computeVolumesAndMasses : MassProperties :=
  mkMassProperties loc_V_internal loc_V_fill loc_m_shell loc_m_lid
    loc_m_dust loc_m_total loc_cog_empty loc_cog_filled.
End Locals.

(* ------------------------------------------------------------------ *)
(** ** Config IO *)
(* ------------------------------------------------------------------ *)

(** The values [JSON.parse] returns.  A number is a finite binary64
    value, held as the rational it denotes, or an infinity, which
    [JSON.parse] gives for a literal beyond the binary64 range. *)
Local Unset Elimination Schemes.
Inductive JsValue : Type :=
| JNull
| JBool (b : bool)
| JNum (q : Q)
| JInfinity (negative : bool)
| JStr (s : string)
| JArr (elems : list JsValue)
| JObj (members : list (string * JsValue)).
Local Set Elimination Schemes.

(** One property assignment [target[k] = v] of [Object.assign].  The
    configuration is a typed record.  A property that names no field is
    left out: the program copies it along in clones and in the saved text,
    and reads it nowhere.  A property that names a field
    with a value of another type than the field (for [L_rect] a [null], a
    string, a boolean or an infinity) cannot be held by the record, and is
    left out as well, whereas JavaScript stores it; the record is what
    [Object.assign] builds exactly for the sources that are [well_typed]
    below. *)
Definition assign_field (k : string) (v : JsValue) (c : Config) : Config :=
  if String.eqb k "L_rect" then match v with JNum a => set_L_rect a c | _ => c end else
  if String.eqb k "x_hopper" then match v with JNum a => set_x_hopper a c | _ => c end else
  if String.eqb k "H" then match v with JNum a => set_H a c | _ => c end else
  if String.eqb k "W" then match v with JNum a => set_W a c | _ => c end else
  if String.eqb k "t_wall" then match v with JNum a => set_t_wall a c | _ => c end else
  if String.eqb k "include_frame" then match v with JBool a => set_include_frame a c | _ => c end else
  if String.eqb k "H_frame" then match v with JNum a => set_H_frame a c | _ => c end else
  if String.eqb k "W_pocket" then match v with JNum a => set_W_pocket a c | _ => c end else
  if String.eqb k "H_pocket" then match v with JNum a => set_H_pocket a c | _ => c end else
  if String.eqb k "S_pocket" then match v with JNum a => set_S_pocket a c | _ => c end else
  if String.eqb k "unlock_pockets" then match v with JBool a => set_unlock_pockets a c | _ => c end else
  if String.eqb k "include_lid" then match v with JBool a => set_include_lid a c | _ => c end else
  if String.eqb k "t_lid" then match v with JNum a => set_t_lid a c | _ => c end else
  if String.eqb k "r_hole" then match v with JNum a => set_r_hole a c | _ => c end else
  if String.eqb k "lid_edge_length" then match v with JNum a => set_lid_edge_length a c | _ => c end else
  if String.eqb k "lid_offset_from_hopper_edge" then match v with JNum a => set_lid_offset_from_hopper_edge a c | _ => c end else
  if String.eqb k "advanced_lid_material" then match v with JBool a => set_advanced_lid_material a c | _ => c end else
  if String.eqb k "rho_lid" then match v with JNum a => set_rho_lid a c | _ => c end else
  if String.eqb k "shell_material" then match v with JStr a => set_shell_material a c | _ => c end else
  if String.eqb k "rho_shell" then match v with JNum a => set_rho_shell a c | _ => c end else
  if String.eqb k "rho_dust" then match v with JNum a => set_rho_dust a c | _ => c end else
  if String.eqb k "humidity" then match v with JNum a => set_humidity a c | _ => c end else
  if String.eqb k "fill_percentage" then match v with JNum a => set_fill_percentage a c | _ => c end else
  if String.eqb k "snap_to_grid" then match v with JBool a => set_snap_to_grid a c | _ => c end else
  if String.eqb k "move_step_mm" then match v with JNum a => set_move_step_mm a c | _ => c end else
  if String.eqb k "show_reference_cube" then match v with JBool a => set_show_reference_cube a c | _ => c end else
  if String.eqb k "show_cog_empty" then match v with JBool a => set_show_cog_empty a c | _ => c end else
  if String.eqb k "show_cog_filled" then match v with JBool a => set_show_cog_filled a c | _ => c end else
  if String.eqb k "export_lid_with_container" then match v with JBool a => set_export_lid_with_container a c | _ => c end else
  c.




(** [Object.assign(target, source)]: the own properties of [source], in
    order; a source that is not an object has none that name a field. *)
Definition Object_assign (target : Config) (source : JsValue) : Config :=
  match source with
  | JObj members =>
      fold_left (fun c kv => assign_field (fst kv) (snd kv) c) members target
  | _ => target
  end.

Section ConfigIO.
(** The built-in [JSON.parse]; [None] stands for the [SyntaxError] it
    throws on a text that is not JSON. *)
Variable JSON_parse : string -> option JsValue.


(** [loadState], given what [localStorage.getItem(STORAGE_KEY)]
    returned. *)
Definition loadState (raw : option string) : Action :=
  let useDefaults : Action :=
    set_state (deepClone DEFAULTS) >>
    set_lastValidState (deepClone DEFAULTS) >>
    log "Using default config." in
  match raw with
  | None => useDefaults
  | Some raw =>
      if String.eqb raw EmptyString then useDefaults
      else
        match JSON_parse raw with
        | Some parsed =>
            set_state (Object_assign (deepClone DEFAULTS) parsed) >>
            (fun e => set_lastValidState (deepClone (state e)) e) >>
            log "Loaded previous config."
        | None => emit (ConsoleWarn "Failed to load state") >> useDefaults
        end
  end.
End ConfigIO.

(* ------------------------------------------------------------------ *)
(** ** A parser for JSON texts *)
(* ------------------------------------------------------------------ *)

(** [JSON.parse] is a built-in of the host; the routines above take it as a
    parameter.  The parser below follows the JSON grammar (values, objects,
    arrays, strings with the two-character escapes, numbers with fraction
    and exponent, rounded to binary64) and serves to run [importConfig] and [loadState] on
    concrete texts.  A [\u] escape is accepted for codes below 128 only. *)
Module Json.
Local Open Scope char_scope.

(** The double-quote character, code 34. *)
Abbreviation DQ := (Ascii false true false false false true false false) (only parsing).

Definition is_ws (a : ascii) : bool :=
  let n := nat_of_ascii a in
  ((n =? 32) || (n =? 9) || (n =? 10) || (n =? 13))%nat.

Fixpoint skip_ws (s : list ascii) : list ascii :=
  match s with
  | a :: r => if is_ws a then skip_ws r else s
  | [] => []
  end.

Definition digit (a : ascii) : option Z :=
  let n := nat_of_ascii a in
  if ((48 <=? n) && (n <=? 57))%nat then Some (Z.of_nat (n - 48)) else None.

(** The longest prefix of digits: its value, its length, the rest. *)
Fixpoint digits (s : list ascii) (acc : Z) (count : nat) : Z * nat * list ascii :=
  match s with
  | a :: r =>
      match digit a with
      | Some d => digits r (10 * acc + d)%Z (S count)
      | None => (acc, count, s)
      end
  | [] => (acc, count, s)
  end.

Definition parse_int (s : list ascii) : option (Z * list ascii) :=
  match s with
  | "0" :: r => Some (0%Z, r)
  | _ =>
      let '(v, n, r) := digits s 0%Z O in
      if (n =? 0)%nat then None else Some (v, r)
  end.

Definition parse_frac (s : list ascii) : option (Q * list ascii) :=
  match s with
  | "." :: r =>
      let '(v, n, r') := digits r 0%Z O in
      if (n =? 0)%nat then None else Some (v # Pos.pow 10 (Pos.of_nat n), r')
  | _ => Some (0%Q, s)
  end.

Definition parse_exp (s : list ascii) : option (Z * list ascii) :=
  let body (neg : bool) (r : list ascii) :=
    let '(v, n, r') := digits r 0%Z O in
    if (n =? 0)%nat then None
    else Some (if neg then (- v)%Z else v, r') in
  match s with
  | "e" :: "-" :: r | "E" :: "-" :: r => body true r
  | "e" :: "+" :: r | "E" :: "+" :: r => body false r
  | "e" :: r | "E" :: r => body false r
  | _ => Some (0%Z, s)
  end.

(** [num / den] rounded to the nearest integer, a tie going to the even
    one; [0 <= num] and [0 < den]. *)
Definition round_half_even (num den : Z) : Z :=
  let fl := (num / den)%Z in
  let r2 := (2 * (num mod den))%Z in
  if (r2 <? den)%Z then fl
  else if (den <? r2)%Z then (fl + 1)%Z
  else if Z.even fl then fl else (fl + 1)%Z.

(** The binary64 number nearest to [n / d], for [0 < n] and [0 < d]: 53
    bits of mantissa, the exponent not below that of the subnormal
    numbers; [None] when the result is beyond the largest finite number,
    where the literal denotes an infinity. *)
Definition binary64 (n d : Z) : option Q :=
  let e0 := (Z.log2 n - Z.log2 d)%Z in
  let ge := if (0 <=? e0)%Z then (d * 2 ^ e0 <=? n)%Z
            else (d <=? n * 2 ^ (- e0))%Z in
  let e := if ge then e0 else (e0 - 1)%Z in
  let s := (Z.max e (-1022) - 52)%Z in
  let m := if (0 <=? s)%Z then round_half_even n (d * 2 ^ s)
           else round_half_even (n * 2 ^ (- s)) d in
  let v := if (0 <=? s)%Z then inject_Z (m * 2 ^ s)
           else Qred (m # Z.to_pos (2 ^ (- s))) in
  if Qle_bool (inject_Z (2 ^ 1024)) v then None else Some v.

(** A number literal denotes the binary64 number nearest to its decimal
    value.  The sign of a zero is not kept. *)
Definition parse_number (s : list ascii) : option (JsValue * list ascii) :=
  let '(neg, s1) := match s with "-" :: r => (true, r) | _ => (false, s) end in
  match parse_int s1 with
  | None => None
  | Some (i, s2) =>
      match parse_frac s2 with
      | None => None
      | Some (f, s3) =>
          match parse_exp s3 with
          | None => None
          | Some (x, s4) =>
              let m := (inject_Z i + f)%Q in
              let v := Qred (m * Qpower 10 x)%Q in
              if (Qnum v =? 0)%Z then Some (JNum 0, s4)
              else
                match binary64 (Qnum v) (Zpos (Qden v)) with
                | Some b => Some (JNum (if neg then (- b)%Q else b), s4)
                | None => Some (JInfinity neg, s4)
                end
          end
      end
  end.

Definition hex (a : ascii) : option nat :=
  let n := nat_of_ascii a in
  if ((48 <=? n) && (n <=? 57))%nat then Some (n - 48)%nat
  else if ((65 <=? n) && (n <=? 70))%nat then Some (n - 55)%nat
  else if ((97 <=? n) && (n <=? 102))%nat then Some (n - 87)%nat
  else None.

(** The characters of a string, after its opening quote. *)
Fixpoint parse_string (s : list ascii) : option (string * list ascii) :=
  let cons (a : ascii) (r : list ascii) :=
    match parse_string r with
    | Some (str, r') => Some (String a str, r')
    | None => None
    end in
  match s with
  | [] => None
  | DQ :: r => Some (EmptyString, r)
  | "\" :: e :: r =>
      match e with
      | DQ => cons DQ r
      | "\" => cons "\" r
      | "/" => cons "/" r
      | "b" => cons (ascii_of_nat 8) r
      | "f" => cons (ascii_of_nat 12) r
      | "n" => cons (ascii_of_nat 10) r
      | "r" => cons (ascii_of_nat 13) r
      | "t" => cons (ascii_of_nat 9) r
      | "u" =>
          match r with
          | h1 :: h2 :: h3 :: h4 :: r' =>
              match hex h1, hex h2, hex h3, hex h4 with
              | Some 0%nat, Some 0%nat, Some c, Some d =>
                  if (c <? 8)%nat
                  then
                    match parse_string r' with
                    | Some (str, r'') => Some (String (ascii_of_nat (16 * c + d)) str, r'')
                    | None => None
                    end
                  else None
              | _, _, _, _ => None
              end
          | _ => None
          end
      | _ => None
      end
  | a :: r => if (nat_of_ascii a <? 32)%nat then None else cons a r
  end.

Fixpoint strip_prefix (p s : list ascii) : option (list ascii) :=
  match p, s with
  | [], _ => Some s
  | a :: p', b :: s' => if Ascii.eqb a b then strip_prefix p' s' else None
  | _ :: _, [] => None
  end.

Fixpoint parse_value (fuel : nat) (s : list ascii) {struct fuel}
  : option (JsValue * list ascii) :=
  match fuel with
  | O => None
  | S fuel' =>
      match skip_ws s with
      | [] => None
      | "{" :: r =>
          match skip_ws r with
          | "}" :: r' => Some (JObj [], r')
          | _ => parse_members fuel' r []
          end
      | "[" :: r =>
          match skip_ws r with
          | "]" :: r' => Some (JArr [], r')
          | _ => parse_elements fuel' r []
          end
      | DQ :: r =>
          match parse_string r with
          | Some (str, r') => Some (JStr str, r')
          | None => None
          end
      | "t" :: r =>
          match strip_prefix ["r"; "u"; "e"] r with
          | Some r' => Some (JBool true, r')
          | None => None
          end
      | "f" :: r =>
          match strip_prefix ["a"; "l"; "s"; "e"] r with
          | Some r' => Some (JBool false, r')
          | None => None
          end
      | "n" :: r =>
          match strip_prefix ["u"; "l"; "l"] r with
          | Some r' => Some (JNull, r')
          | None => None
          end
      | s' =>
          match parse_number s' with
          | Some (v, r') => Some (v, r')
          | None => None
          end
      end
  end
with parse_elements (fuel : nat) (s : list ascii) (acc : list JsValue) {struct fuel}
  : option (JsValue * list ascii) :=
  match fuel with
  | O => None
  | S fuel' =>
      match parse_value fuel' s with
      | None => None
      | Some (v, r) =>
          match skip_ws r with
          | "," :: r' => parse_elements fuel' r' (acc ++ [v])
          | "]" :: r' => Some (JArr (acc ++ [v]), r')
          | _ => None
          end
      end
  end
with parse_members (fuel : nat) (s : list ascii) (acc : list (string * JsValue))
  {struct fuel} : option (JsValue * list ascii) :=
  match fuel with
  | O => None
  | S fuel' =>
      match skip_ws s with
      | DQ :: r =>
          match parse_string r with
          | None => None
          | Some (k, r1) =>
              match skip_ws r1 with
              | ":" :: r2 =>
                  match parse_value fuel' r2 with
                  | None => None
                  | Some (v, r3) =>
                      match skip_ws r3 with
                      | "," :: r4 => parse_members fuel' r4 (acc ++ [(k, v)])
                      | "}" :: r4 => Some (JObj (acc ++ [(k, v)]), r4)
                      | _ => None
                      end
                  end
              | _ => None
              end
          end
      | _ => None
      end
  end.

(** A whole text: one value, then white space only. *)
Definition parse (text : string) : option JsValue :=
  let s := list_ascii_of_string text in
  match parse_value (2 * List.length s + 2) s with
  | Some (v, r) => match skip_ws r with [] => Some v | _ => None end
  | None => None
  end.
End Json.

(* ------------------------------------------------------------------ *)
(** ** The spec's invariants and the validator's six checks *)
(* ------------------------------------------------------------------ *)

(** The six checks, in the order the specification lists them. *)
Inductive Check : Type :=
| Positivity
| WallThickness
| HopperBound
| FrameHeight
| PocketWidth
| LidHole.

Definition check_order : list Check :=
  [Positivity; WallThickness; HopperBound; FrameHeight; PocketWidth; LidHole].

(** The invariants of the data model, in the specification's words:
    [L, H, W, t_wall > 0]; [2 t_wall < min(L, W)]; [0 <= x_hopper <= L];
    with a frame, [H_frame < H] and
    [2 W_pocket + S_pocket + 2 margin <= W] (margin 20); with a lid,
    [r_hole <= max(20, min(W/2 - edge, L/2 - edge))]. *)
Definition invariant (k : Check) (c : Config) : bool :=
  match k with
  | Positivity =>
      js_gt (L_rect c) 0 && js_gt (H c) 0 && js_gt (W c) 0 && js_gt (t_wall c) 0
  | WallThickness =>
      js_lt (2 * t_wall c) (Math_min (L_rect c) (W c))
  | HopperBound =>
      js_le 0 (x_hopper c) && js_le (x_hopper c) (L_rect c)
  | FrameHeight =>
      implb (include_frame c) (js_lt (H_frame c) (H c))
  | PocketWidth =>
      implb (include_frame c) (js_le (2 * W_pocket c + S_pocket c + 2 * 20) (W c))
  | LidHole =>
      implb (include_lid c)
        (js_le (r_hole c)
           (Math_max 20 (Math_min (W c / 2 - lid_edge_length c)
                                  (L_rect c / 2 - lid_edge_length c))))
  end.

Definition violates (k : Check) (c : Config) : bool := negb (invariant k c).

(** What the validator returns when check [k] fails on candidate [c]: the
    three members of the object in the corresponding branch of
    [validateCandidate]. *)
Definition message_of (k : Check) : string :=
  match k with
  | Positivity => "All main dimensions (L_rect, H, W, t_wall) must be > 0."
  | WallThickness =>
      "Wall thickness too large relative to width/length – inner cavity would collapse."
  | HopperBound =>
      "x_hopper must be between 0 and L_rect (wedge cannot be longer than the rectangular part)."
  | FrameHeight => "Frame height H_frame should be smaller than container height H."
  | PocketWidth =>
      "Forklift pockets + spacing need more width than available. Reduce pocket width/spacing or increase container width."
  | LidHole => "Lid hole radius too large; ring edge would become negative."
  end.

Definition fields_of (k : Check) : list string :=
  match k with
  | Positivity => ["input-l-rect"; "input-h"; "input-w"; "input-t-wall"]
  | WallThickness => ["input-t-wall"]
  | HopperBound => ["input-x-hopper"; "input-l-rect"]
  | FrameHeight => ["input-h-frame"; "input-h"]
  | PocketWidth => ["input-w-pocket"; "input-s-pocket"; "input-w"]
  | LidHole => ["input-r-hole"; "input-lid-edge"]
  end.

Definition remedy (k : Check) (c : Config) : Config :=
  match k with
  | Positivity =>
      let c := set_L_rect (Math_max (L_rect c) 100) c in
      let c := set_H (Math_max (H c) 100) c in
      let c := set_W (Math_max (W c) 100) c in
      let c := set_t_wall (Math_max (t_wall c) 2) c in
      c
  | WallThickness =>
      set_t_wall (Math_max 2 (Math_floor (Math_min (W c) (L_rect c) / 4))) c
  | HopperBound =>
      set_x_hopper (Math_max 0 (Math_min (x_hopper c) (L_rect c))) c
  | FrameHeight =>
      set_H_frame (Math_max 30 (Math_floor (H c / 3))) c
  | PocketWidth =>
      set_W_pocket (Math_max 50 (Math_floor ((W c - 2 * 20 - S_pocket c) / 2))) c
  | LidHole =>
      set_r_hole (Math_max 20 (Math_min (W c / 2 - lid_edge_length c)
                                        (L_rect c / 2 - lid_edge_length c))) c
  end.

Definition failure (k : Check) (c : Config) : ValidationResult :=
  Invalid (message_of k) (fun _ => remedy k c) (fields_of k).

(** The candidate after [v.fix && v.fix()]. *)
Definition apply_fix (v : ValidationResult) (candidate : Config) : Config :=
  match v with
  | Invalid _ f _ => f tt
  | Valid => candidate
  end.

(** Validate, apply the returned remedy, validate again. *)
Definition revalidate (c : Config) : ValidationResult :=
  validateCandidate (apply_fix (validateCandidate c) c).

(** When the remedy of check [k] lands inside its own invariant: the three
    remedies that round have a lower bound ([2] for the wall, [30] for the
    frame, [50] for a pocket), and that bound must itself fit. *)
Definition remedy_fits (k : Check) (c : Config) : Prop :=
  match k with
  | WallThickness => 4 < Math_min (W c) (L_rect c)
  | FrameHeight => 30 < H c
  | PocketWidth => S_pocket c + 140 <= W c
  | Positivity | HopperBound | LidHole => True
  end.

(* ------------------------------------------------------------------ *)
(** ** Sample configurations *)
(* ------------------------------------------------------------------ *)

(** The defaults with a wall of 700 mm: only the wall check fails. *)
Definition thick_wall : Config := set_t_wall 700 DEFAULTS.



(** One violated invariant each, with a remedy that fits: no wall, a
    hopper of 2000 mm, a frame as high as the body, pockets of 700 mm, a
    lid hole of 900 mm. *)
Definition no_wall : Config := set_t_wall 0 DEFAULTS.
Definition long_hopper : Config := set_x_hopper 2000 DEFAULTS.
Definition high_frame : Config := set_H_frame 900 DEFAULTS.
Definition wide_pockets : Config := set_W_pocket 700 DEFAULTS.
Definition wide_hole : Config := set_r_hole 900 (set_include_lid true DEFAULTS).

(** A zero width and a wall of 700 mm: positivity and wall thickness both
    fail. *)
Definition no_width_thick_wall : Config := set_W 0 (set_t_wall 700 DEFAULTS).

(** The defaults without a frame and with a height equal to the wall
    thickness of 5 mm: accepted by the validator, inner height zero. *)
Definition flat_body : Config := set_H 5 (set_include_frame false DEFAULTS).

(** The defaults with a negative shell density: accepted by the validator,
    which checks no density. *)
Definition negative_density : Config := set_rho_shell (- (7850)) DEFAULTS.

(** Fifty commits of accepted candidates that differ in their fill
    percentage, 1 to 50. *)
Definition fifty_commits : list Event :=
  map (fun i => EvCommit (set_fill_percentage (inject_Z (Z.of_nat i)) DEFAULTS)
                         "Changed fill percentage.")
      (seq 1 50).

(* ------------------------------------------------------------------ *)
(** ** The specification's volume formulas *)
(* ------------------------------------------------------------------ *)

(** [clamp(v, lo, hi)]. *)
Definition clamp (v lo hi : Q) : Q := Qmax lo (Qmin hi v).

(** The cavity volume in the specification's words: lengths in metres, the
    inner box [(L-2t)(W-2t)(H-t)] plus the hopper wedge
    [0.5 (x_hopper-t)(H-t)(W-2t)], each volume clamped to be at least 0. *)
Definition spec_cavity_volume (c : Config) : Q :=
  let L := mmToM (L_rect c) in
  let W := mmToM (W c) in
  let H := mmToM (H c) in
  let x := mmToM (x_hopper c) in
  let t := mmToM (t_wall c) in
  Qmax 0 ((L - 2 * t) * (W - 2 * t) * (H - t)) +
  Qmax 0 ((1 # 2) * (x - t) * (H - t) * (W - 2 * t)).

(** The fill volume in the specification's words. *)
Definition spec_fill_volume (c : Config) : Q :=
  spec_cavity_volume c * clamp (fill_percentage c / 100) 0 1.

(** Both history stacks together hold at most 50 snapshots. *)
Definition history_bounded (e : Engine) : Prop :=
  (List.length (undoStack e) + List.length (redoStack e) <= 50)%nat.


(* ------------------------------------------------------------------ *)
(** ** The older validator and the older history (unnamed source file) *)
(* ------------------------------------------------------------------ *)

(** Version 1.0.0 of the application: [validateState] has four of the six
    checks (no hopper bound, no frame height), with their own messages. *)
Module V1_0.

Definition validateState (candidate : Config) : ValidationResult :=
  let c := candidate in
  (* Basic positive checks *)
  if js_le (L_rect c) 0 || js_le (H c) 0 || js_le (W c) 0 || js_le (t_wall c) 0 then
    Invalid
      "All main dimensions (L_rect, H, W, t_wall) must be > 0."
      (fun _ =>
         let c := set_L_rect (Math_max (L_rect c) 100) c in
         let c := set_H (Math_max (H c) 100) c in
         let c := set_W (Math_max (W c) 100) c in
         let c := set_t_wall (Math_max (t_wall c) 2) c in
         c)
      ["input-l-rect"; "input-h"; "input-w"; "input-t-wall"]
  else
  (* Wall thickness vs width *)
  let maxWall := Math_min (W c) (L_rect c) / 4 in
  if js_ge (t_wall c * 2) (W c) || js_ge (t_wall c * 2) (L_rect c) then
    Invalid
      "Wall thickness is too large compared to width/length; inner cavity would collapse."
      (fun _ => set_t_wall (Math_max 2 (Math_floor maxWall)) c)
      ["input-t-wall"]
  else
  (* Pockets vs width *)
  let minMargin := 20 in
  let neededWidth := 2 * W_pocket c + S_pocket c + 2 * minMargin in
  if include_frame c && js_gt neededWidth (W c) then
    Invalid
      "Forklift pockets plus spacing require more width than available. Either reduce pocket size/spacing or increase container width."
      (fun _ =>
         let available := W c - 2 * minMargin in
         (* Keep spacing, shrink pockets equally *)
         let newPocket := Math_max 50 (Math_floor ((available - S_pocket c) / 2)) in
         set_W_pocket newPocket c)
      ["input-w-pocket"; "input-s-pocket"; "input-w"]
  else
  (* Lid: hole + edge must fit *)
  let maxRadiusByWidth := (W c / 2) - lid_edge_length c in
  let maxRadiusByLength := (L_rect c / 2) - lid_edge_length c in
  let maxAllow := Math_max 20 (Math_min maxRadiusByWidth maxRadiusByLength) in
  if include_lid c && js_gt (r_hole c) maxAllow then
    Invalid
      "Lid hole radius too large relative to lid edge; ring thickness would be negative."
      (fun _ => set_r_hole maxAllow c)
      ["input-r-hole"; "input-lid-edge"]
  else
    Valid.

(** The four checks of [validateState], in its order. *)
Definition check_order : list Check :=
  [Positivity; WallThickness; PocketWidth; LidHole].

(** The messages of [validateState]. *)
Definition messages (k : Check) : string :=
  match k with
  | WallThickness =>
      "Wall thickness is too large compared to width/length; inner cavity would collapse."
  | PocketWidth =>
      "Forklift pockets plus spacing require more width than available. Either reduce pocket size/spacing or increase container width."
  | LidHole =>
      "Lid hole radius too large relative to lid edge; ring thickness would be negative."
  | Positivity | HopperBound | FrameHeight => message_of k
  end.

End V1_0.

(** Version 3.1.0 of the application: one history array of snapshots with
    an index into it, capped at 20.  A snapshot is the JSON text of
    [params]; as for [deepClone], the text and the value it parses to are
    identified. *)
Module V3_1.

Section History.
Variable Params : Type.

Record App : Type := mkApp {
  params : Params;
  historyStack : list Params;
  historyIndex : Z;
  isUndoRedo : bool
}.

(** [a.slice(0, end)]; a negative [end] counts from the end of the array. *)
Definition slice0 (a : list Params) (end_ : Z) : list Params :=
  if (end_ <? 0)%Z
  then firstn (Z.to_nat (Z.max (Z.of_nat (List.length a) + end_) 0)) a
  else firstn (Z.to_nat end_) a.

Definition pushHistory (h : App) : App :=
  if isUndoRedo h then h
  else
    let stack :=
      if (historyIndex h <? Z.of_nat (List.length (historyStack h)) - 1)%Z
      then slice0 (historyStack h) (historyIndex h + 1)
      else historyStack h in
    let stack := push stack (params h) in
    let index := (historyIndex h + 1)%Z in
    if (20 <? List.length stack)%nat
    then mkApp (params h) (shift stack) (index - 1)%Z (isUndoRedo h)
    else mkApp (params h) stack index (isUndoRedo h).

(** [undo] and [redo]; reading an index outside the array makes
    [JSON.parse] throw, after the index and the flag were assigned. *)
Definition undo (h : App) : App :=
  if (0 <? historyIndex h)%Z then
    let index := (historyIndex h - 1)%Z in
    match nth_error (historyStack h) (Z.to_nat index) with
    | Some p => mkApp p (historyStack h) index false
    | None => mkApp (params h) (historyStack h) index true
    end
  else h.

Definition redo (h : App) : App :=
  if (historyIndex h <? Z.of_nat (List.length (historyStack h)) - 1)%Z then
    let index := (historyIndex h + 1)%Z in
    match (if (index <? 0)%Z then None
           else nth_error (historyStack h) (Z.to_nat index)) with
    | Some p => mkApp p (historyStack h) index false
    | None => mkApp (params h) (historyStack h) index true
    end
  else h.

End History.

End V3_1.

(* ------------------------------------------------------------------ *)
(** ** Handlers of the parameter inputs *)
(* ------------------------------------------------------------------ *)

(** The change handler of the shell-material selector.  It assigns the
    edited copy to [state] before it calls [commitState]; the second
    component is the [disabled] flag it gives the density input. *)
Definition shellMaterialChange (value : string) (e : Engine) : Engine * bool :=
  let s := deepClone (state e) in
  let s := set_shell_material value s in
  let s :=
    if String.eqb (shell_material s) "steel" then set_rho_shell 7850 s
    else if String.eqb (shell_material s) "stainless" then set_rho_shell 8000 s
    else if String.eqb (shell_material s) "aluminum" then set_rho_shell 2700 s
    else s in
  let e := set_state s e in (* update density input before commit *)
  let disabled := negb (String.eqb (shell_material s) "custom") in
  (commitState s "Changed shell material." e, disabled).

(** The handlers [hookNumber] installs on the shell-density and on the
    fill-percentage input; [hookNumber] calls them with finite numbers
    only. *)
Definition rhoShellChange (v : Q) : Action := fun e =>
  let s := deepClone (state e) in
  let s := set_rho_shell v s in
  let s := set_shell_material "custom" s in
  commitState s "Changed shell density." e.

Definition fillPercChange (v : Q) : Action := fun e =>
  let s := deepClone (state e) in
  let s := set_fill_percentage (Math_max 0 (Math_min 100 v)) s in
  commitState s "Changed fill percentage." e.

(* ------------------------------------------------------------------ *)
(** ** What the session has persisted *)
(* ------------------------------------------------------------------ *)

(** The configuration of the latest [saveState] among the effects, that is
    what the storage key holds once the session has written to it. *)
Fixpoint last_saved (t : list Effect) : option Config :=
  match t with
  | [] => None
  | x :: r =>
      match last_saved r with
      | Some c => Some c
      | None => match x with SaveState c => Some c | _ => None end
      end
  end.


(* ------------------------------------------------------------------ *)
(** ** Repeated validation and remedy *)
(* ------------------------------------------------------------------ *)



(** The fields the validator reads. *)
Definition same_geometry (c1 c2 : Config) : Prop :=
  L_rect c1 = L_rect c2 /\ x_hopper c1 = x_hopper c2 /\ H c1 = H c2 /\
  W c1 = W c2 /\ t_wall c1 = t_wall c2 /\
  include_frame c1 = include_frame c2 /\ H_frame c1 = H_frame c2 /\
  W_pocket c1 = W_pocket c2 /\ S_pocket c1 = S_pocket c2 /\
  include_lid c1 = include_lid c2 /\ r_hole c1 = r_hole c2 /\
  lid_edge_length c1 = lid_edge_length c2.

(* ------------------------------------------------------------------ *)
(** ** Collision (container vs imported STLs) *)
(* ------------------------------------------------------------------ *)

(** The collision marker mesh: what [updateCollisions] assigns of it. *)
Record Marker : Type := mkMarker {
  visible : bool;
  position : Point;
  scale : Point
}.

(** The two messages [updateCollisions] logs.  The collision message is
    kept as the four numbers it formats: the extents in mm and the volume
    in litres. *)
Inductive CollisionLog : Type :=
| LogCollision (dxmm dymm dzmm vLit : Q)
| LogCleared.

(** The globals [collisionMarker] and [lastCollisionVolume], and the
    collision messages logged so far. *)
Record Overlap : Type := mkOverlap {
  collisionMarker : option Marker;
  lastCollisionVolume : Q;
  collisionLog : list CollisionLog
}.

Definition initial_overlap : Overlap := mkOverlap None 0 [].

Definition Math_abs (a : Q) : Q := Qabs a.

Section Collisions.
(** The bounding boxes of three.js and the four operations
    [updateCollisions] calls on them. *)
Variable Box3 : Type.
Variable intersectsBox : Box3 -> Box3 -> bool.
Variable intersect : Box3 -> Box3 -> Box3.
Variable getSize : Box3 -> Point.
Variable getCenter : Box3 -> Point.

(** The loop over [importedObjects]: the first intersection whose three
    extents are positive. *)
Definition firstIntersection (boxContainer : Box3) (importedObjects : list Box3)
  : option Box3 :=
  fold_left
    (fun (first : option Box3) (box : Box3) =>
       if intersectsBox boxContainer box then
         let inter := intersect boxContainer box in
         let size := getSize inter in
         if js_gt (pt_x size) 0 && js_gt (pt_y size) 0 && js_gt (pt_z size) 0 &&
            match first with None => true | Some _ => false end
         then Some inter else first
       else first)
    importedObjects None.

(** [updateCollisions], given the bounding box of the container group
    ([None] when there is no group yet) and those of the imported meshes. *)
Definition updateCollisions (containerGroup : option Box3)
    (importedObjects : list Box3) (s : Overlap) : Overlap :=
  match containerGroup with
  | None => s
  | Some boxContainer =>
      match firstIntersection boxContainer importedObjects with
      | Some inter =>
          let size := getSize inter in
          let center := getCenter inter in
          let volume := pt_x size * pt_y size * pt_z size in
          let marker := mkMarker true center size in
          let eps := 1 # 1000000 in
          if js_gt (Math_abs (volume - lastCollisionVolume s)) eps then
            let dxmm := pt_x size * 1000 in
            let dymm := pt_y size * 1000 in
            let dzmm := pt_z size * 1000 in
            let vLit := volume * 1000 in
            mkOverlap (Some marker) volume
              (collisionLog s ++ [LogCollision dxmm dymm dzmm vLit])
          else
            mkOverlap (Some marker) (lastCollisionVolume s) (collisionLog s)
      | None =>
          let marker :=
            match collisionMarker s with
            | Some m => Some (mkMarker false (position m) (scale m))
            | None => None
            end in
          if js_gt (lastCollisionVolume s) 0 then
            mkOverlap marker 0 (collisionLog s ++ [LogCleared])
          else
            mkOverlap marker (lastCollisionVolume s) (collisionLog s)
      end
  end.

(** The frames of the animation loop: one poll per frame, each with the
    boxes of that frame. *)
Definition polls (frames : list (option Box3 * list Box3)) (s : Overlap) : Overlap :=
  fold_left (fun s f => updateCollisions (fst f) (snd f) s) frames s.
End Collisions.

(** Axis-aligned boxes as three.js has them: a minimum and a maximum
    corner; [None] is the empty box that [makeEmpty] produces. *)
Module Box3.

Definition t : Type := option (Point * Point).

Definition isEmpty (b : t) : bool :=
  match b with
  | None => true
  | Some (lo, hi) =>
      js_lt (pt_x hi) (pt_x lo) || js_lt (pt_y hi) (pt_y lo) || js_lt (pt_z hi) (pt_z lo)
  end.

Definition intersectsBox (a b : t) : bool :=
  match a, b with
  | Some (alo, ahi), Some (blo, bhi) =>
      js_ge (pt_x bhi) (pt_x alo) && js_le (pt_x blo) (pt_x ahi) &&
      js_ge (pt_y bhi) (pt_y alo) && js_le (pt_y blo) (pt_y ahi) &&
      js_ge (pt_z bhi) (pt_z alo) && js_le (pt_z blo) (pt_z ahi)
  | _, _ => false
  end.

Definition intersect (a b : t) : t :=
  match a, b with
  | Some (alo, ahi), Some (blo, bhi) =>
      let lo := mkPoint (Math_max (pt_x alo) (pt_x blo)) (Math_max (pt_y alo) (pt_y blo))
                        (Math_max (pt_z alo) (pt_z blo)) in
      let hi := mkPoint (Math_min (pt_x ahi) (pt_x bhi)) (Math_min (pt_y ahi) (pt_y bhi))
                        (Math_min (pt_z ahi) (pt_z bhi)) in
      if isEmpty (Some (lo, hi)) then None else Some (lo, hi)
  | _, _ => None
  end.

Definition getSize (b : t) : Point :=
  match b with
  | Some (lo, hi) =>
      if isEmpty b then mkPoint 0 0 0
      else mkPoint (pt_x hi - pt_x lo) (pt_y hi - pt_y lo) (pt_z hi - pt_z lo)
  | None => mkPoint 0 0 0
  end.

Definition getCenter (b : t) : Point :=
  match b with
  | Some (lo, hi) =>
      if isEmpty b then mkPoint 0 0 0
      else mkPoint ((pt_x lo + pt_x hi) * (1 # 2)) ((pt_y lo + pt_y hi) * (1 # 2))
                   ((pt_z lo + pt_z hi) * (1 # 2))
  | None => mkPoint 0 0 0
  end.

Definition box (x0 y0 z0 x1 y1 z1 : Q) : t :=
  Some (mkPoint x0 y0 z0, mkPoint x1 y1 z1).

End Box3.

(* ------------------------------------------------------------------ *)
(** ** Keyboard movement of the selected object *)
(* ------------------------------------------------------------------ *)

(** [Math.round]: the nearest integer, a tie going up. *)
Definition Math_round (a : Q) : Q := inject_Z (Qfloor (a + (1 # 2))).

(** [toLowerCase] on the letters A to Z. *)
Fixpoint toLowerCase (s : string) : string :=
  match s with
  | EmptyString => EmptyString
  | String a r =>
      let n := nat_of_ascii a in
      String (if ((65 <=? n) && (n <=? 90))%nat then ascii_of_nat (n + 32) else a)
             (toLowerCase r)
  end.

(** [onKeyDown], given [e.key] and the position of the selected object
    ([None] when nothing is selected); the result is the position of the
    selected object after the handler. *)
Definition onKeyDown (s : Config) (e_key : string) (selectedObject : option Point)
  : option Point :=
  match selectedObject with
  | None => None
  | Some position =>
      let key := toLowerCase e_key in
      if negb (existsb (String.eqb key) ["w"; "a"; "s"; "d"]) then Some position
      else
        let step := mmToM (move_step_mm s) in
        let pos := position in
        let pos := if String.eqb key "w"
                   then mkPoint (pt_x pos) (pt_y pos + step) (pt_z pos) else pos in
        let pos := if String.eqb key "s"
                   then mkPoint (pt_x pos) (pt_y pos - step) (pt_z pos) else pos in
        let pos := if String.eqb key "a"
                   then mkPoint (pt_x pos - step) (pt_y pos) (pt_z pos) else pos in
        let pos := if String.eqb key "d"
                   then mkPoint (pt_x pos + step) (pt_y pos) (pt_z pos) else pos in
        let pos :=
          if snap_to_grid s then
            let gs := mmToM 100 in
            mkPoint (Math_round (pt_x pos / gs) * gs) (Math_round (pt_y pos / gs) * gs)
                    (pt_z pos)
          else pos in
        Some pos
  end.

(** The older history is well formed when the index points into the array
    (or is -1 on the empty array) and the array holds 20 entries or
    fewer. *)
Definition history_wf {Params : Type} (h : V3_1.App Params) : Prop :=
  (-1 <= V3_1.historyIndex Params h < Z.of_nat (List.length (V3_1.historyStack Params h)))%Z /\
  (List.length (V3_1.historyStack Params h) <= 20)%nat /\
  V3_1.isUndoRedo Params h = false.

(** An older history of three snapshots with the index on the second one,
    as after three pushes and one undo; the parameters are edited to 7. *)
Definition three_snapshots : V3_1.App nat :=
  V3_1.mkApp nat 7%nat [1%nat; 2%nat; 3%nat] 1%Z false.

(* ------------------------------------------------------------------ *)
(** ** Sample texts *)
(* ------------------------------------------------------------------ *)

(** A string between double quotes. *)
Definition quoted (s : string) : string :=
  String (ascii_of_nat 34) (s ++ String (ascii_of_nat 34) EmptyString).

(** The JSON text [saveState] writes for the defaults. *)
Definition defaults_text : string :=
  "{" ++
  quoted "L_rect" ++ ":1400," ++
  quoted "x_hopper" ++ ":700," ++
  quoted "H" ++ ":900," ++
  quoted "W" ++ ":1300," ++
  quoted "t_wall" ++ ":5," ++
  quoted "include_frame" ++ ":true," ++
  quoted "H_frame" ++ ":100," ++
  quoted "W_pocket" ++ ":230," ++
  quoted "H_pocket" ++ ":91," ++
  quoted "S_pocket" ++ ":142," ++
  quoted "unlock_pockets" ++ ":false," ++
  quoted "include_lid" ++ ":false," ++
  quoted "t_lid" ++ ":3," ++
  quoted "r_hole" ++ ":200," ++
  quoted "lid_edge_length" ++ ":100," ++
  quoted "lid_offset_from_hopper_edge" ++ ":500," ++
  quoted "advanced_lid_material" ++ ":false," ++
  quoted "rho_lid" ++ ":7850," ++
  quoted "shell_material" ++ ":" ++ quoted "steel" ++ "," ++
  quoted "rho_shell" ++ ":7850," ++
  quoted "rho_dust" ++ ":1850," ++
  quoted "humidity" ++ ":0," ++
  quoted "fill_percentage" ++ ":80," ++
  quoted "snap_to_grid" ++ ":true," ++
  quoted "move_step_mm" ++ ":50," ++
  quoted "show_reference_cube" ++ ":false," ++
  quoted "show_cog_empty" ++ ":true," ++
  quoted "show_cog_filled" ++ ":true," ++
  quoted "export_lid_with_container" ++ ":false}".




(** An engine with something to redo: one accepted edit, undone. *)
Definition edit_undone : Engine :=
  undo (commitState (set_t_wall 8 DEFAULTS) "Changed t_wall." initial).


(** A collision log is orderly when every [Collision cleared.] comes right
    after a collision message; [after_collision] tells whether the entry
    before the list was a collision message. *)
Fixpoint orderly (after_collision : bool) (l : list CollisionLog) : bool :=
  match l with
  | [] => true
  | LogCleared :: r => after_collision && orderly false r
  | LogCollision _ _ _ _ :: r => orderly true r
  end.

Definition ends_with_collision (after_collision : bool) (l : list CollisionLog) : bool :=
  match rev l with
  | [] => after_collision
  | LogCollision _ _ _ _ :: _ => true
  | LogCleared :: _ => false
  end.

(** Two frames: a container of 1.4 x 1.3 x 0.9 m with an imported box that
    reaches 0.2 m into it on each axis, then the same container with the
    box moved away. *)
Definition container_box : Box3.t := Box3.box 0 (- (65 # 100)) 0 (14 # 10) (65 # 100) (9 # 10).
Definition touching_box : Box3.t := Box3.box (12 # 10) (45 # 100) (7 # 10) 2 1 1.
Definition distant_box : Box3.t := Box3.box 3 3 3 4 4 4.
Definition two_frames : list (option Box3.t * list Box3.t) :=
  [(Some container_box, [distant_box; touching_box]);
   (Some container_box, [distant_box])].

(** A point on the 100 mm grid. *)
Definition on_grid (p : Point) : Prop :=
  exists i j : Z, pt_x p == inject_Z i * (1 # 10) /\ pt_y p == inject_Z j * (1 # 10).


(** The invariant of the polling loop. *)
Definition poll_invariant (s : Overlap) : Prop :=
  orderly false (collisionLog s) = true /\
  0 <= lastCollisionVolume s /\
  (0 < lastCollisionVolume s -> ends_with_collision false (collisionLog s) = true).

(* ------------------------------------------------------------------ *)
(** ** Arithmetic of the embedded JavaScript operators *)
(* ------------------------------------------------------------------ *)

Lemma js_le_true (a b : Q) : js_le a b = true <-> a <= b.
Proof. apply Qle_bool_iff. Qed.

Lemma js_le_false (a b : Q) : js_le a b = false <-> b < a.
Proof.
  unfold js_le. split.
  - intros E. apply Qnot_le_lt. intros Hle. apply Qle_bool_iff in Hle. congruence.
  - intros Hlt. destruct (Qle_bool a b) eqn:E; [|reflexivity].
    apply Qle_bool_iff in E. exfalso. apply (Qlt_not_le _ _ Hlt E).
Qed.

Lemma js_ge_true (a b : Q) : js_ge a b = true <-> b <= a.
Proof. apply js_le_true. Qed.

Lemma js_ge_false (a b : Q) : js_ge a b = false <-> a < b.
Proof. apply js_le_false. Qed.

Lemma js_gt_true (a b : Q) : js_gt a b = true <-> b < a.
Proof. unfold js_gt. rewrite negb_true_iff. apply js_le_false. Qed.

Lemma js_gt_false (a b : Q) : js_gt a b = false <-> a <= b.
Proof. unfold js_gt. rewrite negb_false_iff. apply js_le_true. Qed.

Lemma js_lt_true (a b : Q) : js_lt a b = true <-> a < b.
Proof. unfold js_lt. rewrite negb_true_iff. apply js_le_false. Qed.

Lemma js_lt_false (a b : Q) : js_lt a b = false <-> b <= a.
Proof. unfold js_lt. rewrite negb_false_iff. apply js_le_true. Qed.

(** Turn every boolean comparison among the hypotheses into its
    proposition. *)
Ltac js_props :=
  repeat match goal with
  | E : _ || _ = true |- _ => apply orb_true_iff in E; destruct E as [E|E]
  | E : _ || _ = false |- _ =>
      apply orb_false_iff in E; let E' := fresh E in destruct E as [E E']
  | E : _ && _ = true |- _ =>
      apply andb_true_iff in E; let E' := fresh E in destruct E as [E E']
  | E : _ && _ = false |- _ => apply andb_false_iff in E; destruct E as [E|E]
  | E : negb _ = true |- _ => apply negb_true_iff in E
  | E : negb _ = false |- _ => apply negb_false_iff in E
  | E : js_le _ _ = true |- _ => apply js_le_true in E
  | E : js_le _ _ = false |- _ => apply js_le_false in E
  | E : js_ge _ _ = true |- _ => apply js_ge_true in E
  | E : js_ge _ _ = false |- _ => apply js_ge_false in E
  | E : js_gt _ _ = true |- _ => apply js_gt_true in E
  | E : js_gt _ _ = false |- _ => apply js_gt_false in E
  | E : js_lt _ _ = true |- _ => apply js_lt_true in E
  | E : js_lt _ _ = false |- _ => apply js_lt_false in E
  end.

(** Case split on every [Math.max] and [Math.min] in sight, keeping the
    defining inequalities for linear arithmetic. *)
Ltac split_minmax :=
  unfold Math_max, Math_min in *;
  repeat match goal with
  | |- context [Qmax ?a ?b] =>
      let S := fresh "S" in let M := fresh "M" in
      pose proof (Q.max_spec a b) as S;
      set (M := Qmax a b) in *; clearbody M; destruct S as [[? ?]|[? ?]]
  | |- context [Qmin ?a ?b] =>
      let S := fresh "S" in let M := fresh "M" in
      pose proof (Q.min_spec a b) as S;
      set (M := Qmin a b) in *; clearbody M; destruct S as [[? ?]|[? ?]]
  | X : context [Qmax ?a ?b] |- _ =>
      let S := fresh "S" in let M := fresh "M" in
      pose proof (Q.max_spec a b) as S;
      set (M := Qmax a b) in *; clearbody M; destruct S as [[? ?]|[? ?]]
  | X : context [Qmin ?a ?b] |- _ =>
      let S := fresh "S" in let M := fresh "M" in
      pose proof (Q.min_spec a b) as S;
      set (M := Qmin a b) in *; clearbody M; destruct S as [[? ?]|[? ?]]
  end.

Lemma Math_floor_le (a : Q) : Math_floor a <= a.
Proof. apply Qfloor_le. Qed.

Lemma Math_floor_lt (a : Q) : a < Math_floor a + 1.
Proof.
  unfold Math_floor. pose proof (Qlt_floor a) as Hlt.
  rewrite inject_Z_plus in Hlt. exact Hlt.
Qed.


(* ------------------------------------------------------------------ *)
(** ** The validator's conditions are the negated invariants *)
(* ------------------------------------------------------------------ *)

Lemma violates_Positivity (c : Config) :
  violates Positivity c =
  js_le (L_rect c) 0 || js_le (H c) 0 || js_le (W c) 0 || js_le (t_wall c) 0.
Proof.
  unfold violates, invariant, js_gt, js_le.
  destruct (Qle_bool (L_rect c) 0), (Qle_bool (H c) 0),
    (Qle_bool (W c) 0), (Qle_bool (t_wall c) 0); reflexivity.
Qed.

Lemma violates_WallThickness (c : Config) :
  violates WallThickness c =
  js_ge (2 * t_wall c) (W c) || js_ge (2 * t_wall c) (L_rect c).
Proof.
  unfold violates, invariant.
  destruct (js_lt (2 * t_wall c) (Math_min (L_rect c) (W c))) eqn:E1;
    destruct (js_ge (2 * t_wall c) (W c)) eqn:E2;
    destruct (js_ge (2 * t_wall c) (L_rect c)) eqn:E3;
    try reflexivity; exfalso; js_props; split_minmax; lra.
Qed.

Lemma violates_HopperBound (c : Config) :
  violates HopperBound c = js_lt (x_hopper c) 0 || js_gt (x_hopper c) (L_rect c).
Proof.
  unfold violates, invariant, js_lt, js_gt, js_le.
  destruct (Qle_bool 0 (x_hopper c)), (Qle_bool (x_hopper c) (L_rect c)); reflexivity.
Qed.

Lemma violates_FrameHeight (c : Config) :
  violates FrameHeight c = include_frame c && js_ge (H_frame c) (H c).
Proof.
  unfold violates, invariant, js_lt, js_ge.
  destruct (include_frame c), (Qle_bool (H c) (H_frame c)); reflexivity.
Qed.

Lemma violates_PocketWidth (c : Config) :
  violates PocketWidth c =
  include_frame c && js_gt (2 * W_pocket c + S_pocket c + 2 * 20) (W c).
Proof.
  unfold violates, invariant, js_gt, js_le.
  destruct (include_frame c),
    (Qle_bool (2 * W_pocket c + S_pocket c + 2 * 20) (W c)); reflexivity.
Qed.

Lemma violates_LidHole (c : Config) :
  violates LidHole c =
  include_lid c &&
  js_gt (r_hole c)
    (Math_max 20 (Math_min (W c / 2 - lid_edge_length c)
                           (L_rect c / 2 - lid_edge_length c))).
Proof.
  unfold violates, invariant, js_gt, js_le.
  destruct (include_lid c); [|reflexivity].
  destruct (Qle_bool (r_hole c) _); reflexivity.
Qed.

(** The validator, read as a search through the six checks in order. *)
Lemma validateCandidate_find (c : Config) :
  validateCandidate c =
  match find (fun k => violates k c) check_order with
  | Some k => failure k c
  | None => Valid
  end.
Proof.
  unfold check_order, find.
  rewrite violates_Positivity, violates_WallThickness, violates_HopperBound,
    violates_FrameHeight, violates_PocketWidth, violates_LidHole.
  unfold validateCandidate.
  destruct (js_le (L_rect c) 0 || js_le (H c) 0 || js_le (W c) 0 || js_le (t_wall c) 0);
    [reflexivity|].
  destruct (js_ge (2 * t_wall c) (W c) || js_ge (2 * t_wall c) (L_rect c));
    [reflexivity|].
  destruct (js_lt (x_hopper c) 0 || js_gt (x_hopper c) (L_rect c)); [reflexivity|].
  destruct (include_frame c && js_ge (H_frame c) (H c)); [reflexivity|].
  cbv zeta.
  destruct (include_frame c && js_gt (2 * W_pocket c + S_pocket c + 2 * 20) (W c));
    [reflexivity|].
  destruct (include_lid c && js_gt (r_hole c) _); reflexivity.
Qed.

(** A candidate passes exactly when it satisfies the six invariants. *)
Lemma validateCandidate_Valid_iff (c : Config) :
  validateCandidate c = Valid <-> forall k, violates k c = false.
Proof.
  rewrite validateCandidate_find. unfold check_order, find. split.
  - intros E k.
    destruct (violates Positivity c) eqn:V1; [discriminate|].
    destruct (violates WallThickness c) eqn:V2; [discriminate|].
    destruct (violates HopperBound c) eqn:V3; [discriminate|].
    destruct (violates FrameHeight c) eqn:V4; [discriminate|].
    destruct (violates PocketWidth c) eqn:V5; [discriminate|].
    destruct (violates LidHole c) eqn:V6; [discriminate|].
    destruct k; assumption.
  - intros Hall. rewrite !Hall. reflexivity.
Qed.


(* ------------------------------------------------------------------ *)
(** ** Order of the checks *)
(* ------------------------------------------------------------------ *)

(** C5.  The validator runs the six checks in the order positivity, wall
    thickness, hopper bound, frame height, pocket width, lid hole, and
    returns at the first one that fails: whatever else a candidate violates,
    the message, the remedy and the field list returned are those of the
    earliest violated check in that order; a candidate that violates none is
    [Valid]. *)
Theorem validator_reports_earliest_violation (c : Config) :
  check_order =
    [Positivity; WallThickness; HopperBound; FrameHeight; PocketWidth; LidHole] /\
  validateCandidate c =
    match find (fun k => violates k c) check_order with
    | Some k => Invalid (message_of k) (fun _ => remedy k c) (fields_of k)
    | None => Valid
    end.
Proof.
  split; [reflexivity|]. apply validateCandidate_find.
Qed.

(** Two violated invariants, positivity and wall thickness: the positivity
    diagnostic is the one returned. *)
Example validator_two_violations :
  violates Positivity no_width_thick_wall = true /\
  violates WallThickness no_width_thick_wall = true /\
  validateCandidate no_width_thick_wall = failure Positivity no_width_thick_wall.
Proof. repeat split; reflexivity. Qed.

(* ------------------------------------------------------------------ *)
(** ** Remedies *)
(* ------------------------------------------------------------------ *)

Ltac div_consts :=
  unfold Qdiv in *;
  change (/ 2) with (1 # 2) in *;
  change (/ 3) with (1 # 3) in *;
  change (/ 4) with (1 # 4) in *;
  change (/ 100) with (1 # 100) in *;
  change (/ 1000) with (1 # 1000) in *.

Ltac js_goal :=
  repeat match goal with
  | |- _ /\ _ => split
  | |- _ && _ = true => apply andb_true_iff; split
  | |- negb _ = false => apply negb_false_iff
  | |- negb _ = true => apply negb_true_iff
  | |- implb true _ = true => simpl
  | |- implb false _ = true => reflexivity
  | |- js_le _ _ = true => apply js_le_true
  | |- js_gt _ _ = true => apply js_gt_true
  | |- js_lt _ _ = true => apply js_lt_true
  | |- js_ge _ _ = true => apply js_ge_true
  end.

Ltac floor_facts :=
  repeat match goal with
  | |- context [Math_floor ?a] =>
      let F := fresh "F" in
      pose proof (Math_floor_le a); set (F := Math_floor a) in *; clearbody F
  end.

Ltac config_fields :=
  cbn [L_rect x_hopper H W t_wall include_frame H_frame W_pocket S_pocket
       include_lid r_hole lid_edge_length
       set_L_rect set_H set_W set_t_wall set_x_hopper set_H_frame
       set_W_pocket set_r_hole].

(** A candidate that violates invariant [k] alone, remedied: every
    invariant holds, provided the remedy's lower bound fits. *)
Lemma remedy_restores (c : Config) (k : Check) :
  violates k c = true ->
  (forall j, j <> k -> violates j c = false) ->
  remedy_fits k c ->
  forall j, violates j (remedy k c) = false.
Proof.
  intros Hk Hothers Hfits j.
  assert (I1 := Hothers Positivity). assert (I2 := Hothers WallThickness).
  assert (I3 := Hothers HopperBound). assert (I4 := Hothers FrameHeight).
  assert (I5 := Hothers PocketWidth). assert (I6 := Hothers LidHole).
  clear Hothers. unfold violates in *.
  destruct k;
    repeat match goal with
    | X : ?a <> ?a -> _ |- _ => clear X
    | X : _ <> _ -> _ |- _ => specialize (X ltac:(discriminate))
    end;
    unfold invariant in * |-; unfold remedy_fits in Hfits;
    destruct (include_frame c) eqn:Efr; destruct (include_lid c) eqn:Elid;
    cbn [implb] in *;
    destruct j; unfold invariant, remedy; config_fields;
    try rewrite Efr; try rewrite Elid; cbn [implb];
    js_props; js_goal; try reflexivity; try discriminate;
    floor_facts; div_consts; split_minmax; lra.
Qed.

(** The validator returns the failure of the only violated check. *)
Lemma only_violation_reported (c : Config) (k : Check) :
  violates k c = true ->
  (forall j, j <> k -> violates j c = false) ->
  validateCandidate c = failure k c.
Proof.
  intros Hk Hothers. rewrite validateCandidate_find. unfold check_order, find.
  destruct k; rewrite ?Hk;
    repeat match goal with
    | |- context [violates ?j c] =>
        rewrite (Hothers j ltac:(discriminate))
    end; rewrite ?Hk; reflexivity.
Qed.



(** The five other remedies on a sample each: the values assigned, and the
    retry. *)
Example remedies_on_samples :
  (t_wall (remedy Positivity no_wall) == 2 /\ revalidate no_wall = Valid) /\
  (x_hopper (remedy HopperBound long_hopper) == 1400 /\ revalidate long_hopper = Valid) /\
  (H_frame (remedy FrameHeight high_frame) == 300 /\ revalidate high_frame = Valid) /\
  (W_pocket (remedy PocketWidth wide_pockets) == 559 /\ revalidate wide_pockets = Valid) /\
  (r_hole (remedy LidHole wide_hole) == 550 /\ revalidate wide_hole = Valid).
Proof. repeat split; reflexivity. Qed.


(* ------------------------------------------------------------------ *)
(** ** History stacks *)
(* ------------------------------------------------------------------ *)

Lemma pop_push {A} (l : list A) (x : A) : pop (push l x) = Some (x, l).
Proof.
  unfold pop, push. rewrite rev_app_distr. simpl. rewrite rev_involutive. reflexivity.
Qed.

Lemma pop_nil {A} : pop (@nil A) = None.
Proof. reflexivity. Qed.

Lemma pop_length {A} (l : list A) (x : A) (r : list A) :
  pop l = Some (x, r) -> List.length l = S (List.length r).
Proof.
  unfold pop. intros E. destruct (rev l) as [|y t] eqn:R; [discriminate|].
  injection E as <- <-.
  rewrite <- (rev_involutive l), R. simpl.
  rewrite length_app, !length_rev. simpl. lia.
Qed.

Lemma pop_None_nil {A} (l : list A) : pop l = None -> l = [].
Proof.
  unfold pop. destruct (rev l) as [|y t] eqn:R; [|discriminate].
  intros _. rewrite <- (rev_involutive l), R. reflexivity.
Qed.

(** Unfold the actions down to the record they build, and read its
    fields. *)
Ltac unfold_actions :=
  unfold seq_action, deepClone in *;
  cbn [state lastValidState undoStack redoStack pendingFixIgnore trace
       seq_action showModal closeModal log markInvalid applyStateToInputs
       rebuildGeometry updateOutputs updateUndoButtons saveState
       set_state set_lastValidState set_undoStack set_redoStack
       set_pendingFixIgnore emit deepClone] in *.

(** What [pushUndo] leaves on the undo stack: the old stack with the
    current state appended, less its oldest entry when that makes 51. *)
Lemma undoStack_pushUndo (e : Engine) :
  undoStack (pushUndo e) =
  if (50 <? List.length (push (undoStack e) (state e)))%nat
  then shift (push (undoStack e) (state e))
  else push (undoStack e) (state e).
Proof.
  unfold pushUndo. unfold_actions.
  destruct (50 <? List.length (push (undoStack e) (state e)))%nat; reflexivity.
Qed.

Lemma redoStack_pushUndo (e : Engine) : redoStack (pushUndo e) = [].
Proof. reflexivity. Qed.

Lemma state_pushUndo (e : Engine) : state (pushUndo e) = state e.
Proof.
  unfold pushUndo. unfold_actions.
  destruct (50 <? List.length (push (undoStack e) (state e)))%nat; reflexivity.
Qed.

Lemma lastValidState_pushUndo (e : Engine) :
  lastValidState (pushUndo e) = lastValidState e.
Proof.
  unfold pushUndo. unfold_actions.
  destruct (50 <? List.length (push (undoStack e) (state e)))%nat; reflexivity.
Qed.

Lemma pendingFixIgnore_pushUndo (e : Engine) :
  pendingFixIgnore (pushUndo e) = pendingFixIgnore e.
Proof.
  unfold pushUndo. unfold_actions.
  destruct (50 <? List.length (push (undoStack e) (state e)))%nat; reflexivity.
Qed.

(** The newest entry after [pushUndo] is the state at the call. *)
Lemma undoStack_pushUndo_top (e : Engine) :
  exists rest, undoStack (pushUndo e) = push rest (state e).
Proof.
  rewrite undoStack_pushUndo.
  destruct (50 <? List.length (push (undoStack e) (state e)))%nat eqn:Over.
  - destruct (undoStack e) as [|a l].
    + discriminate.
    + exists l. reflexivity.
  - exists (undoStack e). reflexivity.
Qed.

Lemma length_undoStack_pushUndo (e : Engine) :
  (List.length (undoStack e) <= 50 ->
   List.length (undoStack (pushUndo e)) <= 50)%nat.
Proof.
  intros Hlen. rewrite undoStack_pushUndo. unfold push, shift.
  destruct (50 <? List.length (undoStack e ++ [state e]))%nat eqn:Over.
  - destruct (undoStack e) as [|a l]; simpl in *; [lia|].
    rewrite length_app. simpl. lia.
  - apply Nat.ltb_ge in Over. exact Over.
Qed.

(** [undo] and [redo] on a stack whose newest entry is known. *)
Lemma undo_top (e : Engine) (rest : list Config) (prev : Config) :
  undoStack e = push rest prev ->
  state (undo e) = prev /\
  lastValidState (undo e) = prev /\
  undoStack (undo e) = rest /\
  redoStack (undo e) = push (redoStack e) (state e) /\
  pendingFixIgnore (undo e) = pendingFixIgnore e.
Proof.
  intros E. unfold undo. rewrite E, pop_push. repeat split; reflexivity.
Qed.

Lemma redo_top (e : Engine) (rest : list Config) (next : Config) :
  redoStack e = push rest next ->
  state (redo e) = next /\
  lastValidState (redo e) = next /\
  redoStack (redo e) = rest /\
  undoStack (redo e) = push (undoStack e) (state e) /\
  pendingFixIgnore (redo e) = pendingFixIgnore e.
Proof.
  intros E. unfold redo. rewrite E, pop_push. repeat split; reflexivity.
Qed.

Lemma undo_empty (e : Engine) : undoStack e = [] -> undo e = e.
Proof. intros E. unfold undo. rewrite E. reflexivity. Qed.

Lemma redo_empty (e : Engine) : redoStack e = [] -> redo e = e.
Proof. intros E. unfold redo. rewrite E. reflexivity. Qed.

(* ------------------------------------------------------------------ *)
(** ** Commit protocol *)
(* ------------------------------------------------------------------ *)

(** The globals after a commit that validates. *)
Lemma commitState_valid (e : Engine) (c : Config) (msg : string) :
  validateCandidate c = Valid ->
  state (commitState c msg e) = c /\
  lastValidState (commitState c msg e) = c /\
  undoStack (commitState c msg e) = undoStack (pushUndo e) /\
  redoStack (commitState c msg e) = [] /\
  pendingFixIgnore (commitState c msg e) = pendingFixIgnore e.
Proof.
  intros Hv. unfold commitState, deepClone. rewrite Hv.
  unfold_actions.
  repeat split; try reflexivity.
  - rewrite !undoStack_pushUndo. reflexivity.
  - rewrite pendingFixIgnore_pushUndo. reflexivity.
Qed.

(** The globals after a commit that does not validate. *)
Lemma commitState_invalid (e : Engine) (c : Config) (msg : string) :
  ok (validateCandidate c) = false ->
  state (commitState c msg e) = state e /\
  lastValidState (commitState c msg e) = lastValidState e /\
  undoStack (commitState c msg e) = undoStack e /\
  redoStack (commitState c msg e) = redoStack e /\
  pendingFixIgnore (commitState c msg e) = Some (mkPending (validateCandidate c) c).
Proof.
  intros Hv. unfold commitState, deepClone.
  destruct (validateCandidate c) as [|m f fl]; [discriminate|].
  repeat split; reflexivity.
Qed.

(** C3.  From any engine state, a commit of a candidate that validates,
    then [undo], then [redo]: the commit installs the candidate, [undo]
    brings back the configuration that was current before the commit, and
    [redo] brings back the committed candidate; the records are equal, hence
    equal field for field. *)
Theorem commit_undo_redo (e : Engine) (c : Config) (msg : string) :
  validateCandidate c = Valid ->
  state (commitState c msg e) = c /\
  state (undo (commitState c msg e)) = state e /\
  state (redo (undo (commitState c msg e))) = c.
Proof.
  intros Hv.
  destruct (commitState_valid e c msg Hv) as (Es & _ & Eu & Er & _).
  destruct (undoStack_pushUndo_top e) as [rest Etop].
  rewrite Etop in Eu.
  destruct (undo_top _ _ _ Eu) as (Us & _ & _ & Ur & _).
  rewrite Er, Es in Ur.
  destruct (redo_top _ [] c Ur) as (Rs & _).
  repeat split; assumption.
Qed.

Lemma commit_undo_redo_witness :
  state (commitState (set_t_wall 8 DEFAULTS) "Changed t_wall." initial) =
    set_t_wall 8 DEFAULTS /\
  state (undo (commitState (set_t_wall 8 DEFAULTS) "Changed t_wall." initial)) =
    state initial /\
  state (redo (undo (commitState (set_t_wall 8 DEFAULTS) "Changed t_wall." initial))) =
    set_t_wall 8 DEFAULTS.
Proof.
  apply (commit_undo_redo initial (set_t_wall 8 DEFAULTS) "Changed t_wall.").
  reflexivity.
Defined.

Ltac trace_norm := repeat rewrite <- app_assoc; cbn [app].

(** C4.  A commit of a candidate that fails validation changes none of
    [state], [lastValidState], [undoStack], [redoStack]: it marks the
    offending fields, opens the modal and stores the two resolutions, and
    nothing else.  Ignore then copies the last valid configuration into
    [state], leaves both stacks as they were, and neither rebuilds the
    geometry nor recomputes the outputs nor persists. *)
Theorem invalid_commit_defers (e : Engine) (c : Config) (msg : string) :
  ok (validateCandidate c) = false ->
  (state (commitState c msg e) = state e /\
   lastValidState (commitState c msg e) = lastValidState e /\
   undoStack (commitState c msg e) = undoStack e /\
   redoStack (commitState c msg e) = redoStack e /\
   pendingFixIgnore (commitState c msg e) = Some (mkPending (validateCandidate c) c) /\
   exists m f fl,
     validateCandidate c = Invalid m f fl /\
     trace (commitState c msg e) =
       (trace e ++
        [MarkInvalid fl;
         ShowModal m "Fix will auto-correct values. Ignore keeps the last valid geometry."])%list) /\
  (state (clickIgnore (commitState c msg e)) = lastValidState e /\
   lastValidState (clickIgnore (commitState c msg e)) = lastValidState e /\
   undoStack (clickIgnore (commitState c msg e)) = undoStack e /\
   redoStack (clickIgnore (commitState c msg e)) = redoStack e /\
   pendingFixIgnore (clickIgnore (commitState c msg e)) = None /\
   trace (clickIgnore (commitState c msg e)) =
     (trace (commitState c msg e) ++
      [ApplyStateToInputs; MarkInvalid [];
       Log "Invalid parameters ignored; geometry unchanged."; CloseModal])%list).
Proof.
  intros Hv. unfold clickIgnore, onIgnore, commitState, deepClone.
  destruct (validateCandidate c) as [|m f fl] eqn:Ev; [discriminate|].
  unfold_actions. split.
  - repeat split; try reflexivity.
    exists m, f, fl. split; [reflexivity|]. trace_norm. reflexivity.
  - repeat split; try reflexivity. trace_norm. reflexivity.
Qed.

Lemma invalid_commit_defers_witness :
  state (commitState thick_wall "Changed t_wall." initial) = state initial /\
  undoStack (clickIgnore (commitState thick_wall "Changed t_wall." initial)) =
    undoStack initial.
Proof.
  destruct (invalid_commit_defers initial thick_wall "Changed t_wall." eq_refl)
    as [(Es & _) (_ & _ & Eu & _)].
  split; [exact Es | exact Eu].
Defined.

(** The Fix closure: the remedied candidate becomes [state] before
    [pushUndo] runs, so the snapshot pushed is the remedied candidate. *)
Lemma onFix_globals (p : Pending) (e : Engine) :
  state (onFix p e) = apply_fix (pend_v p) (pend_candidate p) /\
  lastValidState (onFix p e) = apply_fix (pend_v p) (pend_candidate p) /\
  (exists rest, undoStack (onFix p e) = push rest (apply_fix (pend_v p) (pend_candidate p))) /\
  (List.length (undoStack e) <= 50 -> List.length (undoStack (onFix p e)) <= 50)%nat /\
  redoStack (onFix p e) = [] /\
  pendingFixIgnore (onFix p e) = pendingFixIgnore e.
Proof.
  unfold onFix. fold (apply_fix (pend_v p) (pend_candidate p)).
  set (c' := apply_fix (pend_v p) (pend_candidate p)).
  unfold_actions.
  match goal with
  | |- context [pushUndo ?E] => set (e1 := E)
  end.
  rewrite state_pushUndo, lastValidState_pushUndo, pendingFixIgnore_pushUndo.
  repeat split; try reflexivity.
  - destruct (undoStack_pushUndo_top e1) as [rest Et].
    exists rest. rewrite Et. reflexivity.
  - intros Hlen. apply length_undoStack_pushUndo. exact Hlen.
Qed.

Lemma closeModal_globals (e : Engine) :
  state (closeModal e) = state e /\
  lastValidState (closeModal e) = lastValidState e /\
  undoStack (closeModal e) = undoStack e /\
  redoStack (closeModal e) = redoStack e /\
  pendingFixIgnore (closeModal e) = None.
Proof. repeat split; reflexivity. Qed.

(** The Fix resolution of a rejected commit. *)
Lemma clickFix_after_invalid_commit (e : Engine) (c : Config) (msg : string) :
  ok (validateCandidate c) = false ->
  state (clickFix (commitState c msg e)) = apply_fix (validateCandidate c) c /\
  lastValidState (clickFix (commitState c msg e)) = apply_fix (validateCandidate c) c /\
  (exists rest,
     undoStack (clickFix (commitState c msg e)) =
       push rest (apply_fix (validateCandidate c) c)) /\
  redoStack (clickFix (commitState c msg e)) = [] /\
  pendingFixIgnore (clickFix (commitState c msg e)) = None.
Proof.
  intros Hv.
  destruct (commitState_invalid e c msg Hv) as (_ & _ & _ & _ & Ep).
  unfold clickFix. rewrite Ep.
  set (p := mkPending (validateCandidate c) c).
  destruct (onFix_globals p (commitState c msg e)) as (Fs & Fl & Fu & _ & Fr & _).
  destruct (closeModal_globals (onFix p (commitState c msg e)))
    as (Cs & Cl & Cu & Cr & Cp).
  rewrite Cs, Cl, Cu, Cr, Cp, Fs, Fl, Fr.
  repeat split; try reflexivity. exact Fu.
Qed.

(** After Fix, [undo] pops the remedied candidate: the configuration that
    was current before the commit is not restored. *)
Lemma fix_then_undo (e : Engine) (c : Config) (msg : string) :
  ok (validateCandidate c) = false ->
  state (undo (clickFix (commitState c msg e))) = apply_fix (validateCandidate c) c.
Proof.
  intros Hv.
  destruct (clickFix_after_invalid_commit e c msg Hv) as (_ & _ & [rest Et] & _).
  destruct (undo_top _ _ _ Et) as (Es & _). exact Es.
Qed.

(** C2, evaluated.  From the initial engine (current configuration: the
    defaults, wall 5 mm), the commit of a wall of 700 mm is rejected; after
    Fix the current configuration has the remedied wall of 325 mm, the undo
    stack holds that remedied configuration and not the defaults, and [undo]
    leaves the wall at 325 mm. *)
Theorem fix_then_undo_keeps_remedied :
  ok (validateCandidate thick_wall) = false /\
  state (clickFix (commitState thick_wall "Changed t_wall." initial)) =
    set_t_wall 325 DEFAULTS /\
  undoStack (clickFix (commitState thick_wall "Changed t_wall." initial)) =
    [set_t_wall 325 DEFAULTS] /\
  state (undo (clickFix (commitState thick_wall "Changed t_wall." initial))) =
    set_t_wall 325 DEFAULTS /\
  state (undo (clickFix (commitState thick_wall "Changed t_wall." initial))) <>
    state initial.
Proof.
  repeat split; try reflexivity.
  intros E. apply (f_equal t_wall) in E. discriminate E.
Qed.

(** The valid path pushes before it assigns: there [undo] does restore the
    configuration that was current before the commit. *)
Example valid_commit_then_undo_restores :
  state (undo (commitState (set_t_wall 325 DEFAULTS) "Changed t_wall." initial)) =
  state initial.
Proof. reflexivity. Qed.

(* ------------------------------------------------------------------ *)
(** ** Bound on the history stacks *)
(* ------------------------------------------------------------------ *)

Lemma history_bounded_pushUndo (e : Engine) :
  (List.length (undoStack e) <= 50)%nat -> history_bounded (pushUndo e).
Proof.
  intros Hlen. unfold history_bounded. rewrite redoStack_pushUndo. cbn [List.length].
  pose proof (length_undoStack_pushUndo e Hlen). lia.
Qed.

Lemma history_bounded_ext (e e' : Engine) :
  undoStack e' = undoStack e -> redoStack e' = redoStack e ->
  history_bounded e -> history_bounded e'.
Proof. unfold history_bounded. intros -> ->. trivial. Qed.

Lemma history_bounded_undo (e : Engine) : history_bounded e -> history_bounded (undo e).
Proof.
  unfold history_bounded, undo. intros Hb.
  destruct (pop (undoStack e)) as [[prev rest]|] eqn:P; [|exact Hb].
  apply pop_length in P. unfold_actions. unfold push.
  rewrite length_app. cbn [List.length]. lia.
Qed.

Lemma history_bounded_redo (e : Engine) : history_bounded e -> history_bounded (redo e).
Proof.
  unfold history_bounded, redo. intros Hb.
  destruct (pop (redoStack e)) as [[next rest]|] eqn:P; [|exact Hb].
  apply pop_length in P. unfold_actions. unfold push.
  rewrite length_app. cbn [List.length]. lia.
Qed.

Lemma history_bounded_commitState (e : Engine) (c : Config) (msg : string) :
  history_bounded e -> history_bounded (commitState c msg e).
Proof.
  intros Hb. destruct (validateCandidate c) as [|m f fl] eqn:Ev.
  - destruct (commitState_valid e c msg Ev) as (_ & _ & Eu & Er & _).
    unfold history_bounded. rewrite Eu, Er. cbn [List.length].
    assert (Hlen : (List.length (undoStack e) <= 50)%nat)
      by (unfold history_bounded in Hb; lia).
    pose proof (length_undoStack_pushUndo e Hlen). lia.
  - assert (Hv : ok (validateCandidate c) = false) by (rewrite Ev; reflexivity).
    destruct (commitState_invalid e c msg Hv) as (_ & _ & Eu & Er & _).
    apply (history_bounded_ext e); assumption.
Qed.

Lemma history_bounded_clickFix (e : Engine) :
  history_bounded e -> history_bounded (clickFix e).
Proof.
  intros Hb. unfold clickFix.
  destruct (pendingFixIgnore e) as [p|]; [|exact Hb].
  destruct (onFix_globals p e) as (_ & _ & _ & Fu & Fr & _).
  destruct (closeModal_globals (onFix p e)) as (_ & _ & Cu & Cr & _).
  unfold history_bounded in *. rewrite Cu, Cr, Fr. cbn [List.length].
  assert (Hlen : (List.length (undoStack e) <= 50)%nat) by lia.
  specialize (Fu Hlen). lia.
Qed.

Lemma history_bounded_clickIgnore (e : Engine) :
  history_bounded e -> history_bounded (clickIgnore e).
Proof.
  intros Hb. unfold clickIgnore.
  destruct (pendingFixIgnore e) as [p|]; exact Hb.
Qed.

Lemma history_bounded_step (e : Engine) (ev : Event) :
  history_bounded e -> history_bounded (step e ev).
Proof.
  intros Hb. destruct ev; cbn [step].
  - apply history_bounded_commitState, Hb.
  - apply history_bounded_clickFix, Hb.
  - apply history_bounded_clickIgnore, Hb.
  - apply history_bounded_undo, Hb.
  - apply history_bounded_redo, Hb.
  - unfold history_bounded. cbn. lia.
Qed.

Lemma history_bounded_run (evs : list Event) (e : Engine) :
  history_bounded e -> history_bounded (run e evs).
Proof.
  revert e. induction evs as [|ev evs IH]; intros e Hb; cbn [run fold_left].
  - exact Hb.
  - apply IH, history_bounded_step, Hb.
Qed.

(** C6.  Starting with empty stacks, after every sequence of commits, Fix
    and Ignore resolutions, undos, redos and resets, the undo stack and the
    redo stack each hold at most 50 snapshots; and when the undo stack
    holds 50, [pushUndo] drops the oldest entry and appends the current
    state, so the stack still holds 50. *)
Theorem history_stacks_capped (e0 : Engine) (evs : list Event) :
  undoStack e0 = [] ->
  redoStack e0 = [] ->
  ((List.length (undoStack (run e0 evs)) <= 50)%nat /\
   (List.length (redoStack (run e0 evs)) <= 50)%nat) /\
  (List.length (undoStack (run e0 evs)) = 50%nat ->
   undoStack (pushUndo (run e0 evs)) =
     push (shift (undoStack (run e0 evs))) (state (run e0 evs)) /\
   List.length (undoStack (pushUndo (run e0 evs))) = 50%nat).
Proof.
  intros Eu Er.
  assert (Hb0 : history_bounded e0).
  { unfold history_bounded. rewrite Eu, Er. cbn. lia. }
  pose proof (history_bounded_run evs e0 Hb0) as Hb. unfold history_bounded in Hb.
  split; [split; lia|].
  intros Hlen. rewrite undoStack_pushUndo. unfold push, shift.
  rewrite length_app, Hlen. cbn [List.length Nat.add Nat.ltb Nat.leb].
  destruct (undoStack (run e0 evs)) as [|a l]; [discriminate|].
  cbn [tl app]. split; [reflexivity|].
  rewrite length_app. cbn [List.length] in *. lia.
Qed.

Lemma history_stacks_capped_witness :
  ((List.length (undoStack (run initial fifty_commits)) <= 50)%nat /\
   (List.length (redoStack (run initial fifty_commits)) <= 50)%nat) /\
  undoStack (pushUndo (run initial fifty_commits)) =
    push (shift (undoStack (run initial fifty_commits)))
         (state (run initial fifty_commits)) /\
  List.length (undoStack (pushUndo (run initial fifty_commits))) = 50%nat.
Proof.
  destruct (history_stacks_capped initial fifty_commits eq_refl eq_refl) as [Hb Hev].
  split; [exact Hb|]. apply Hev. vm_compute. reflexivity.
Defined.

(** After the fifty commits the oldest snapshot is the initial
    configuration; the 51st push removes it. *)
Example fifty_first_push_evicts :
  hd_error (undoStack (run initial fifty_commits)) = Some DEFAULTS /\
  hd_error (undoStack (pushUndo (run initial fifty_commits))) =
    Some (set_fill_percentage 1 DEFAULTS).
Proof. split; vm_compute; reflexivity. Qed.

(* ------------------------------------------------------------------ *)
(** ** The live configuration and the last valid one *)
(* ------------------------------------------------------------------ *)





(** [undo] and [redo] that restore a snapshot set both configurations
    to it. *)
Lemma undo_redo_overwrite_lastValidState (e : Engine) (rest : list Config) (c : Config) :
  (undoStack e = push rest c ->
   state (undo e) = c /\ lastValidState (undo e) = c) /\
  (redoStack e = push rest c ->
   state (redo e) = c /\ lastValidState (redo e) = c).
Proof.
  split; intros E.
  - destruct (undo_top e rest c E) as (Es & El & _). split; assumption.
  - destruct (redo_top e rest c E) as (Es & El & _). split; assumption.
Qed.

(* ------------------------------------------------------------------ *)
(** ** Import of a configuration *)
(* ------------------------------------------------------------------ *)






(* ------------------------------------------------------------------ *)
(** ** Volumes and masses *)
(* ------------------------------------------------------------------ *)

Lemma Qmult3_nonneg (a b c : Q) : 0 <= a -> 0 <= b -> 0 <= c -> 0 <= a * b * c.
Proof.
  intros Ha Hb Hc. apply Qmult_le_0_compat; [apply Qmult_le_0_compat|]; assumption.
Qed.

Lemma Math_max_lower_l (a b : Q) : a <= Math_max a b.
Proof. apply Q.le_max_l. Qed.

Lemma Math_max_lower_r (a b : Q) : b <= Math_max a b.
Proof. apply Q.le_max_r. Qed.

Section VolumeFacts.
Variable s : Config.

Lemma L_in_pos : 0 < L_in s.
Proof. pose proof (Math_max_lower_l (1 # 1000) (loc_L s - 2 * loc_t s)). unfold L_in. lra. Qed.

Lemma W_in_pos : 0 < W_in s.
Proof. pose proof (Math_max_lower_l (1 # 1000) (loc_W s - 2 * loc_t s)). unfold W_in. lra. Qed.

Lemma H_in_pos : 0 < H_in s.
Proof. pose proof (Math_max_lower_l (1 # 1000) (loc_H s - loc_t s)). unfold H_in. lra. Qed.

Lemma x_in_nonneg : 0 <= x_in s.
Proof. apply Math_max_lower_l. Qed.

Lemma V_rect_in_nonneg : 0 <= V_rect_in s.
Proof.
  unfold V_rect_in. pose proof L_in_pos. pose proof W_in_pos. pose proof H_in_pos.
  apply Qmult3_nonneg; lra.
Qed.

Lemma V_hopper_in_nonneg : 0 <= V_hopper_in s.
Proof.
  unfold V_hopper_in, H_tri_in.
  pose proof x_in_nonneg. pose proof W_in_pos. pose proof H_in_pos.
  apply Qmult_le_0_compat; [apply Qmult3_nonneg|]; lra.
Qed.

Lemma V_internal_nonneg : 0 <= loc_V_internal s.
Proof.
  unfold loc_V_internal. pose proof V_rect_in_nonneg. pose proof V_hopper_in_nonneg. lra.
Qed.

Lemma fillFrac_range : 0 <= fillFrac s <= 1.
Proof. unfold fillFrac. split_minmax; lra. Qed.

Lemma V_fill_nonneg : 0 <= loc_V_fill s.
Proof.
  unfold loc_V_fill. apply Qmult_le_0_compat; [apply V_internal_nonneg | apply fillFrac_range].
Qed.

Lemma V_shell_nonneg : 0 <= V_shell s.
Proof. apply Math_max_lower_l. Qed.

Lemma V_lid_nonneg : 0 <= V_lid s.
Proof.
  unfold V_lid. destruct (include_lid s); [apply Math_max_lower_l | lra].
Qed.
End VolumeFacts.

(** C8, amended.  For every configuration the validator accepts and whose
    densities are not negative ([rho_shell], [rho_dust], and [rho_lid] when
    the lid is included with its own material), the cavity, fill, shell and
    lid volumes and the four masses are not negative.  The volumes are so
    for every configuration. *)
Theorem mass_outputs_nonnegative (c : Config) :
  validateCandidate c = Valid ->
  0 <= rho_shell c ->
  0 <= rho_dust c ->
  (include_lid c = true -> advanced_lid_material c = true -> 0 <= rho_lid c) ->
  0 <= V_internal (computeVolumesAndMasses c) /\
  0 <= V_fill (computeVolumesAndMasses c) /\
  0 <= V_shell c /\
  0 <= V_lid c /\
  0 <= m_shell (computeVolumesAndMasses c) /\
  0 <= m_lid (computeVolumesAndMasses c) /\
  0 <= m_dust (computeVolumesAndMasses c) /\
  0 <= m_total (computeVolumesAndMasses c).
Proof.
  intros _ Hshell Hdust Hlid.
  cbn [computeVolumesAndMasses V_internal V_fill m_shell m_lid m_dust m_total].
  assert (Hms : 0 <= loc_m_shell c).
  { unfold loc_m_shell, rhoShell.
    apply Qmult_le_0_compat; [apply V_shell_nonneg | exact Hshell]. }
  assert (Hml : 0 <= loc_m_lid c).
  { unfold loc_m_lid, rhoLid, rhoShell.
    apply Qmult_le_0_compat; [apply V_lid_nonneg|].
    destruct (include_lid c); [|lra].
    destruct (advanced_lid_material c); [apply Hlid; reflexivity | exact Hshell]. }
  assert (Hmd : 0 <= loc_m_dust c).
  { unfold loc_m_dust, rhoDust.
    apply Qmult_le_0_compat; [apply V_fill_nonneg | exact Hdust]. }
  repeat split;
    [ apply V_internal_nonneg | apply V_fill_nonneg | apply V_shell_nonneg
    | apply V_lid_nonneg | exact Hms | exact Hml | exact Hmd | ].
  unfold loc_m_total, m_empty. lra.
Qed.

Lemma mass_outputs_nonnegative_witness :
  0 <= V_internal (computeVolumesAndMasses DEFAULTS) /\
  0 <= V_fill (computeVolumesAndMasses DEFAULTS) /\
  0 <= V_shell DEFAULTS /\
  0 <= V_lid DEFAULTS /\
  0 <= m_shell (computeVolumesAndMasses DEFAULTS) /\
  0 <= m_lid (computeVolumesAndMasses DEFAULTS) /\
  0 <= m_dust (computeVolumesAndMasses DEFAULTS) /\
  0 <= m_total (computeVolumesAndMasses DEFAULTS).
Proof.
  apply (mass_outputs_nonnegative DEFAULTS).
  - reflexivity.
  - vm_compute. discriminate.
  - vm_compute. discriminate.
  - intros Hlid. discriminate Hlid.
Defined.

(** C8 as stated fails: the validator accepts a negative shell density,
    and the shell mass is then negative. *)
Lemma negative_density_negative_mass :
  validateCandidate negative_density = Valid /\
  m_shell (computeVolumesAndMasses negative_density) < 0.
Proof. split; vm_compute; reflexivity. Qed.

(** The boundary configurations the specification names are accepted, and
    their outputs are not negative. *)
Example boundary_configurations_accepted :
  validateCandidate (set_x_hopper 0 DEFAULTS) = Valid /\
  validateCandidate (set_include_frame false DEFAULTS) = Valid /\
  validateCandidate (set_include_lid false DEFAULTS) = Valid /\
  validateCandidate (set_fill_percentage 0 DEFAULTS) = Valid /\
  validateCandidate (set_fill_percentage 100 DEFAULTS) = Valid /\
  V_fill (computeVolumesAndMasses (set_fill_percentage 0 DEFAULTS)) == 0 /\
  V_fill (computeVolumesAndMasses (set_fill_percentage 100 DEFAULTS)) ==
    V_internal (computeVolumesAndMasses DEFAULTS).
Proof. repeat (split; [vm_compute; reflexivity|]). vm_compute. reflexivity. Qed.

(** The code's [fillFrac] is the specification's clamp. *)
Lemma fillFrac_clamp (c : Config) : fillFrac c == clamp (fill_percentage c / 100) 0 1.
Proof. unfold fillFrac, clamp. split_minmax; lra. Qed.

(** C7, amended.  For every configuration whose inner dimensions [L - 2t],
    [W - 2t] and [H - t] are at least 1 mm each, the cavity volume is the
    inner box volume plus the hopper wedge volume, each clamped to be at
    least 0, with lengths in metres; and the fill volume is the cavity
    volume times [clamp(fill_percentage / 100, 0, 1)].  (Below 1 mm the code
    raises the inner dimension to 0.001 m instead of clamping the volume.) *)
Theorem cavity_and_fill_volume (c : Config) :
  1 <= L_rect c - 2 * t_wall c ->
  1 <= W c - 2 * t_wall c ->
  1 <= H c - t_wall c ->
  V_internal (computeVolumesAndMasses c) == spec_cavity_volume c /\
  V_fill (computeVolumesAndMasses c) ==
    V_internal (computeVolumesAndMasses c) * clamp (fill_percentage c / 100) 0 1 /\
  V_fill (computeVolumesAndMasses c) == spec_fill_volume c.
Proof.
  intros HL HW HH.
  cbn [computeVolumesAndMasses V_internal V_fill].
  assert (EL : L_in c == mmToM (L_rect c) - 2 * mmToM (t_wall c)).
  { unfold L_in, loc_L, loc_t, mmToM, Math_max. apply Q.max_r. div_consts. lra. }
  assert (EW : W_in c == mmToM (W c) - 2 * mmToM (t_wall c)).
  { unfold W_in, loc_W, loc_t, mmToM, Math_max. apply Q.max_r. div_consts. lra. }
  assert (EH : H_in c == mmToM (H c) - mmToM (t_wall c)).
  { unfold H_in, loc_H, loc_t, mmToM, Math_max. apply Q.max_r. div_consts. lra. }
  pose proof (L_in_pos c) as PL. pose proof (W_in_pos c) as PW.
  pose proof (H_in_pos c) as PH.
  assert (Ecav : loc_V_internal c == spec_cavity_volume c).
  { unfold loc_V_internal, V_rect_in, V_hopper_in, H_tri_in, spec_cavity_volume.
    cbv zeta. rewrite <- EL, <- EW, <- EH.
    assert (Ebox : Qmax 0 (L_in c * W_in c * H_in c) == L_in c * W_in c * H_in c).
    { apply Q.max_r. apply Qmult3_nonneg; lra. }
    rewrite Ebox. apply Qplus_inj_l.
    unfold x_in, loc_x, loc_t, Math_max.
    set (u := mmToM (x_hopper c) - mmToM (t_wall c)).
    destruct (Qlt_le_dec u 0) as [Hneg|Hpos].
    - assert (E0 : Qmax 0 u == 0) by (apply Q.max_l; lra).
      rewrite E0.
      assert (Hle : (1 # 2) * u * H_in c * W_in c <= 0).
      { assert (Hp : 0 <= (1 # 2) * (- u) * H_in c * W_in c).
        { apply Qmult_le_0_compat; [apply Qmult3_nonneg|]; lra. }
        assert (Er : (1 # 2) * (- u) * H_in c * W_in c ==
                     - ((1 # 2) * u * H_in c * W_in c)) by ring.
        lra. }
      rewrite (Q.max_l _ _ Hle). ring.
    - assert (Eu : Qmax 0 u == u) by (apply Q.max_r; exact Hpos).
      rewrite Eu.
      assert (Hge : 0 <= (1 # 2) * u * H_in c * W_in c).
      { apply Qmult_le_0_compat; [apply Qmult3_nonneg|]; lra. }
      rewrite (Q.max_r _ _ Hge). reflexivity. }
  assert (Efill : loc_V_fill c ==
                  loc_V_internal c * clamp (fill_percentage c / 100) 0 1).
  { unfold loc_V_fill. rewrite fillFrac_clamp. reflexivity. }
  split; [exact Ecav|]. split; [exact Efill|].
  unfold spec_fill_volume. rewrite Efill, Ecav. reflexivity.
Qed.

Lemma cavity_and_fill_volume_witness :
  V_internal (computeVolumesAndMasses DEFAULTS) == spec_cavity_volume DEFAULTS /\
  V_fill (computeVolumesAndMasses DEFAULTS) ==
    V_internal (computeVolumesAndMasses DEFAULTS) *
    clamp (fill_percentage DEFAULTS / 100) 0 1 /\
  V_fill (computeVolumesAndMasses DEFAULTS) == spec_fill_volume DEFAULTS.
Proof.
  apply (cavity_and_fill_volume DEFAULTS); vm_compute; discriminate.
Defined.

(** C7 as stated fails.  [flat_body] is accepted by the validator and has
    inner height [H - t = 0]: the stated formula gives a cavity of 0, the
    code raises the inner height to 0.001 m and returns 0.002241375 m3. *)
Lemma cavity_floor_not_clamp :
  validateCandidate flat_body = Valid /\
  spec_cavity_volume flat_body == 0 /\
  V_internal (computeVolumesAndMasses flat_body) == 2241375 # 1000000000 /\
  ~ V_internal (computeVolumesAndMasses flat_body) == spec_cavity_volume flat_body.
Proof.
  split; [reflexivity|]. split; [vm_compute; reflexivity|].
  split; [vm_compute; reflexivity|].
  vm_compute. discriminate.
Qed.

(* ------------------------------------------------------------------ *)
(** ** The remedies' lower bounds *)
(* ------------------------------------------------------------------ *)


(** The lid-hole remedy needs no condition: the validator reports it only
    after the five other checks passed, and it assigns the largest radius
    allowed. *)
Lemma lid_hole_remedy_valid (c : Config) :
  validateCandidate c = failure LidHole c -> revalidate c = Valid.
Proof.
  intros E. unfold revalidate. rewrite E. cbn [failure apply_fix].
  rewrite validateCandidate_find in E. unfold check_order, find in E.
  destruct (violates Positivity c) eqn:V1; [discriminate|].
  destruct (violates WallThickness c) eqn:V2; [discriminate|].
  destruct (violates HopperBound c) eqn:V3; [discriminate|].
  destruct (violates FrameHeight c) eqn:V4; [discriminate|].
  destruct (violates PocketWidth c) eqn:V5; [discriminate|].
  destruct (violates LidHole c) eqn:V6; [|discriminate].
  apply validateCandidate_Valid_iff. intros j.
  destruct j; try assumption.
  unfold violates, invariant. cbn [remedy]. config_fields.
  destruct (include_lid c); [|reflexivity]. cbn [implb].
  apply negb_false_iff. apply js_le_true. lra.
Qed.

(* ------------------------------------------------------------------ *)
(** ** The older validator *)
(* ------------------------------------------------------------------ *)

(** [validateState] runs four of the six checks, in the same relative
    order, with the same remedies and field lists. *)
Lemma validateState_find (c : Config) :
  V1_0.validateState c =
  match find (fun k => violates k c) V1_0.check_order with
  | Some k => Invalid (V1_0.messages k) (fun _ => remedy k c) (fields_of k)
  | None => Valid
  end.
Proof.
  unfold V1_0.check_order, find.
  rewrite violates_Positivity, violates_WallThickness,
    violates_PocketWidth, violates_LidHole.
  unfold V1_0.validateState. cbv zeta.
  destruct (js_le (L_rect c) 0 || js_le (H c) 0 || js_le (W c) 0 || js_le (t_wall c) 0);
    [reflexivity|].
  assert (Et : forall b, js_ge (t_wall c * 2) b = js_ge (2 * t_wall c) b).
  { intros b. unfold js_ge. apply Qleb_comp; [reflexivity | ring]. }
  rewrite !Et.
  destruct (js_ge (2 * t_wall c) (W c) || js_ge (2 * t_wall c) (L_rect c));
    [reflexivity|].
  destruct (include_frame c && js_gt (2 * W_pocket c + S_pocket c + 2 * 20) (W c));
    [reflexivity|].
  destruct (include_lid c && js_gt (r_hole c) _); reflexivity.
Qed.

(** On candidates within the hopper and frame-height invariants the two
    validators accept the same candidates and return the same remedy. *)
Lemma validateState_agrees (c : Config) :
  violates HopperBound c = false ->
  violates FrameHeight c = false ->
  ok (V1_0.validateState c) = ok (validateCandidate c) /\
  apply_fix (V1_0.validateState c) c = apply_fix (validateCandidate c) c.
Proof.
  intros V3 V4. rewrite validateState_find, validateCandidate_find.
  unfold V1_0.check_order, check_order, find. rewrite V3, V4.
  destruct (violates Positivity c); [split; reflexivity|].
  destruct (violates WallThickness c); [split; reflexivity|].
  destruct (violates PocketWidth c); [split; reflexivity|].
  destruct (violates LidHole c); split; reflexivity.
Qed.

(** The retry of [validateState] after its remedy, under the conditions of
    the amended C1. *)
Lemma validateState_retry (c : Config) (k : Check) :
  violates k c = true ->
  (forall j, j <> k -> violates j c = false) ->
  remedy_fits k c ->
  In k V1_0.check_order ->
  V1_0.validateState (apply_fix (V1_0.validateState c) c) = Valid.
Proof.
  intros Hk Hothers Hfits Hin.
  assert (V3 : violates HopperBound c = false).
  { apply Hothers. intros E. subst k. cbn in Hin. intuition discriminate. }
  assert (V4 : violates FrameHeight c = false).
  { apply Hothers. intros E. subst k. cbn in Hin. intuition discriminate. }
  destruct (validateState_agrees c V3 V4) as [_ Efix]. rewrite Efix.
  rewrite (only_violation_reported c k Hk Hothers). cbn [failure apply_fix].
  rewrite validateState_find. unfold V1_0.check_order, find.
  rewrite !(remedy_restores c k Hk Hothers Hfits). reflexivity.
Qed.

(* ------------------------------------------------------------------ *)
(** ** The older history *)
(* ------------------------------------------------------------------ *)

Section OlderHistory.
Variable Params : Type.

Lemma length_firstn_le {A} (n : nat) (l : list A) :
  (List.length (firstn n l) <= List.length l)%nat.
Proof. rewrite length_firstn. lia. Qed.

(** [pushHistory] keeps the history at 20 snapshots or fewer. *)
Lemma pushHistory_capped (h : V3_1.App Params) :
  (List.length (V3_1.historyStack Params h) <= 20)%nat ->
  (List.length (V3_1.historyStack Params (V3_1.pushHistory Params h)) <= 20)%nat.
Proof.
  intros Hlen. unfold V3_1.pushHistory.
  destruct (V3_1.isUndoRedo Params h); [exact Hlen|].
  set (stack := if (_ <? _)%Z then _ else _).
  assert (Hs : (List.length stack <= 20)%nat).
  { subst stack. destruct (_ <? _)%Z; [|exact Hlen].
    unfold V3_1.slice0. destruct (_ <? 0)%Z;
      (eapply Nat.le_trans; [apply length_firstn_le | exact Hlen]). }
  cbv zeta. unfold push, shift.
  destruct (20 <? List.length (stack ++ [V3_1.params Params h]))%nat eqn:Over;
    cbn [V3_1.historyStack].
  - destruct stack as [|a l]; cbn [app tl List.length] in *; [lia|].
    rewrite length_app. cbn [List.length]. lia.
  - apply Nat.ltb_ge in Over. exact Over.
Qed.

Lemma older_undo_redo_keep_stack (h : V3_1.App Params) :
  V3_1.historyStack Params (V3_1.undo Params h) = V3_1.historyStack Params h /\
  V3_1.historyStack Params (V3_1.redo Params h) = V3_1.historyStack Params h.
Proof.
  unfold V3_1.undo, V3_1.redo. split.
  - destruct (0 <? _)%Z; [|reflexivity].
    destruct (nth_error _ _); reflexivity.
  - destruct (_ <? _)%Z; [|reflexivity].
    destruct (if (_ <? 0)%Z then _ else _); reflexivity.
Qed.
End OlderHistory.

(* ================================================================== *)
(** * Further properties of the code *)
(* ================================================================== *)

(* ------------------------------------------------------------------ *)
(** ** Undo and redo compose *)
(* ------------------------------------------------------------------ *)

Lemma nonempty_push {A} (l : list A) : l <> [] -> exists r x, l = push r x.
Proof.
  intros Hne. destruct (exists_last Hne) as (r & x & E).
  exists r, x. exact E.
Qed.

(** X1.  Whenever the undo stack is not empty, [undo] followed by [redo]
    brings back the configuration and both stacks as they were. *)
Theorem undo_then_redo (e : Engine) :
  undoStack e <> [] ->
  state (redo (undo e)) = state e /\
  undoStack (redo (undo e)) = undoStack e /\
  redoStack (redo (undo e)) = redoStack e.
Proof.
  intros Hne. destruct (nonempty_push _ Hne) as (rest & prev & Eu).
  destruct (undo_top e rest prev Eu) as (Us & _ & Uu & Ur & _).
  destruct (redo_top (undo e) (redoStack e) (state e) Ur) as (Rs & _ & Rr & Ru & _).
  rewrite Rs, Rr, Ru, Uu, Us, Eu. repeat split; reflexivity.
Qed.

Lemma undo_then_redo_witness :
  state (redo (undo (commitState (set_t_wall 8 DEFAULTS) "Changed t_wall." initial))) =
    state (commitState (set_t_wall 8 DEFAULTS) "Changed t_wall." initial) /\
  undoStack (redo (undo (commitState (set_t_wall 8 DEFAULTS) "Changed t_wall." initial))) =
    undoStack (commitState (set_t_wall 8 DEFAULTS) "Changed t_wall." initial) /\
  redoStack (redo (undo (commitState (set_t_wall 8 DEFAULTS) "Changed t_wall." initial))) =
    redoStack (commitState (set_t_wall 8 DEFAULTS) "Changed t_wall." initial).
Proof.
  apply (undo_then_redo (commitState (set_t_wall 8 DEFAULTS) "Changed t_wall." initial)).
  discriminate.
Defined.

(** X2.  Whenever the redo stack is not empty, [redo] followed by [undo]
    brings back the configuration and both stacks as they were. *)
Theorem redo_then_undo (e : Engine) :
  redoStack e <> [] ->
  state (undo (redo e)) = state e /\
  undoStack (undo (redo e)) = undoStack e /\
  redoStack (undo (redo e)) = redoStack e.
Proof.
  intros Hne. destruct (nonempty_push _ Hne) as (rest & next & Er).
  destruct (redo_top e rest next Er) as (Rs & _ & Rr & Ru & _).
  destruct (undo_top (redo e) (undoStack e) (state e) Ru) as (Us & _ & Uu & Ur & _).
  rewrite Us, Uu, Ur, Rr, Rs, Er. repeat split; reflexivity.
Qed.

Lemma redo_then_undo_witness :
  state (undo (redo (undo (commitState (set_t_wall 8 DEFAULTS) "Changed t_wall." initial)))) =
  state (undo (commitState (set_t_wall 8 DEFAULTS) "Changed t_wall." initial)).
Proof.
  apply (redo_then_undo (undo (commitState (set_t_wall 8 DEFAULTS) "Changed t_wall." initial))).
  discriminate.
Defined.

(** X3.  [undo] and [redo] keep the number of snapshots: the two stacks
    together hold as many after the operation as before it (one snapshot
    moves, or nothing happens on an empty stack). *)
Theorem undo_redo_conserve_snapshots (e : Engine) :
  (List.length (undoStack (undo e)) + List.length (redoStack (undo e)) =
   List.length (undoStack e) + List.length (redoStack e))%nat /\
  (List.length (undoStack (redo e)) + List.length (redoStack (redo e)) =
   List.length (undoStack e) + List.length (redoStack e))%nat.
Proof.
  split.
  - unfold undo. destruct (pop (undoStack e)) as [[prev rest]|] eqn:P; [|reflexivity].
    apply pop_length in P. unfold_actions. unfold push.
    rewrite length_app. cbn [List.length]. lia.
  - unfold redo. destruct (pop (redoStack e)) as [[next rest]|] eqn:P; [|reflexivity].
    apply pop_length in P. unfold_actions. unfold push.
    rewrite length_app. cbn [List.length]. lia.
Qed.

(** X4.  A commit that validates and a Fix resolution both empty the redo
    stack: a [redo] right after either of them does nothing. *)
Theorem forward_edit_drops_redo (e : Engine) (c : Config) (msg : string) (p : Pending) :
  (validateCandidate c = Valid ->
   redoStack (commitState c msg e) = [] /\
   redo (commitState c msg e) = commitState c msg e) /\
  (pendingFixIgnore e = Some p ->
   redoStack (clickFix e) = [] /\ redo (clickFix e) = clickFix e).
Proof.
  split.
  - intros Hv. destruct (commitState_valid e c msg Hv) as (_ & _ & _ & Er & _).
    split; [exact Er | apply redo_empty, Er].
  - intros Hp. unfold clickFix. rewrite Hp.
    destruct (onFix_globals p e) as (_ & _ & _ & _ & Fr & _).
    destruct (closeModal_globals (onFix p e)) as (_ & _ & _ & Cr & _).
    rewrite Fr in Cr. split; [exact Cr | apply redo_empty, Cr].
Qed.

Lemma forward_edit_drops_redo_witness :
  (redoStack edit_undone = [set_t_wall 8 DEFAULTS] /\
   redoStack (commitState (set_t_wall 10 DEFAULTS) "Changed t_wall." edit_undone) = [] /\
   redo (commitState (set_t_wall 10 DEFAULTS) "Changed t_wall." edit_undone) =
     commitState (set_t_wall 10 DEFAULTS) "Changed t_wall." edit_undone) /\
  (redoStack (commitState thick_wall "Changed t_wall." edit_undone) =
     [set_t_wall 8 DEFAULTS] /\
   redoStack (clickFix (commitState thick_wall "Changed t_wall." edit_undone)) = [] /\
   redo (clickFix (commitState thick_wall "Changed t_wall." edit_undone)) =
     clickFix (commitState thick_wall "Changed t_wall." edit_undone)).
Proof.
  split.
  - split; [reflexivity|].
    apply (forward_edit_drops_redo edit_undone (set_t_wall 10 DEFAULTS)
             "Changed t_wall." (mkPending Valid DEFAULTS)).
    reflexivity.
  - split; [reflexivity|].
    apply (forward_edit_drops_redo
             (commitState thick_wall "Changed t_wall." edit_undone)
             DEFAULTS "Changed t_wall."
             (mkPending (validateCandidate thick_wall) thick_wall)).
    reflexivity.
Defined.

(* ------------------------------------------------------------------ *)
(** ** What the validator reads *)
(* ------------------------------------------------------------------ *)

Lemma violates_same_geometry (c1 c2 : Config) (k : Check) :
  same_geometry c1 c2 -> violates k c1 = violates k c2.
Proof.
  intros (E1 & E2 & E3 & E4 & E5 & E6 & E7 & E8 & E9 & E10 & E11 & E12).
  unfold violates, invariant.
  destruct k; rewrite ?E1, ?E2, ?E3, ?E4, ?E5, ?E6, ?E7, ?E8, ?E9, ?E10, ?E11, ?E12;
    reflexivity.
Qed.

Lemma validateCandidate_same_geometry (c1 c2 : Config) :
  same_geometry c1 c2 ->
  (validateCandidate c1 = Valid <-> validateCandidate c2 = Valid).
Proof.
  intros Hg. rewrite !validateCandidate_Valid_iff.
  split; intros Hall k;
    [rewrite <- (violates_same_geometry c1 c2 k Hg) | rewrite (violates_same_geometry c1 c2 k Hg)];
    apply Hall.
Qed.

(** X5.  The validator reads twelve fields only (the five body
    dimensions, the frame and lid switches, frame height, pocket width and
    spacing, hole radius and ring width): two candidates that agree on them
    get the same verdict, the same message and the same field list,
    whatever their densities, fill, lid thickness, pocket height or view
    settings. *)
Theorem validator_reads_geometry_only (c1 c2 : Config) :
  same_geometry c1 c2 ->
  ok (validateCandidate c1) = ok (validateCandidate c2) /\
  (forall m1 f1 fl1 m2 f2 fl2,
     validateCandidate c1 = Invalid m1 f1 fl1 ->
     validateCandidate c2 = Invalid m2 f2 fl2 ->
     m1 = m2 /\ fl1 = fl2).
Proof.
  intros Hg. rewrite !validateCandidate_find.
  assert (Ef : find (fun k => violates k c1) check_order =
               find (fun k => violates k c2) check_order).
  { unfold check_order, find.
    rewrite !(violates_same_geometry c1 c2 _ Hg). reflexivity. }
  rewrite Ef. destruct (find (fun k => violates k c2) check_order) as [k|].
  - split; [reflexivity|].
    intros m1 f1 fl1 m2 f2 fl2 I1 I2. unfold failure in *.
    injection I1 as <- _ <-. injection I2 as <- _ <-. split; reflexivity.
  - split; [reflexivity|]. intros m1 f1 fl1 m2 f2 fl2 I1. discriminate I1.
Qed.

Lemma validator_reads_geometry_only_witness :
  ok (validateCandidate (set_rho_shell (- (7850)) (set_fill_percentage 250 thick_wall))) =
  ok (validateCandidate thick_wall).
Proof.
  apply (validator_reads_geometry_only
           (set_rho_shell (- (7850)) (set_fill_percentage 250 thick_wall)) thick_wall).
  repeat split; reflexivity.
Defined.

(* ------------------------------------------------------------------ *)
(** ** Successive remedies *)
(* ------------------------------------------------------------------ *)











(* ------------------------------------------------------------------ *)
(** ** Handlers of the parameter inputs *)
(* ------------------------------------------------------------------ *)

Lemma same_geometry_refl (c : Config) : same_geometry c c.
Proof. repeat split; reflexivity. Qed.

(** X8.  A change of shell material cannot be undone.  The handler assigns
    the edited configuration to [state] before [commitState] takes its undo
    snapshot, so on a configuration the validator accepts the snapshot is
    the edited configuration itself: the new material is installed with the
    density linked to it, and [undo] leaves it in place. *)
Theorem shell_material_change_not_undoable (e : Engine) (value : string) :
  validateCandidate (state e) = Valid ->
  shell_material (state (fst (shellMaterialChange value e))) = value /\
  (value = "steel" -> rho_shell (state (fst (shellMaterialChange value e))) = 7850) /\
  (value = "stainless" -> rho_shell (state (fst (shellMaterialChange value e))) = 8000) /\
  (value = "aluminum" -> rho_shell (state (fst (shellMaterialChange value e))) = 2700) /\
  state (undo (fst (shellMaterialChange value e))) =
    state (fst (shellMaterialChange value e)).
Proof.
  intros Hv. unfold shellMaterialChange. cbn [fst]. unfold deepClone.
  set (s := if String.eqb (shell_material (set_shell_material value (state e))) "steel"
            then _ else _).
  assert (Hg : same_geometry s (state e)).
  { subst s. cbn [shell_material set_shell_material].
    destruct (String.eqb value "steel"); [repeat split; reflexivity|].
    destruct (String.eqb value "stainless"); [repeat split; reflexivity|].
    destruct (String.eqb value "aluminum"); repeat split; reflexivity. }
  assert (Hs : validateCandidate s = Valid).
  { apply (validateCandidate_same_geometry s (state e) Hg). exact Hv. }
  destruct (commitState_valid (set_state s e) s "Changed shell material." Hs)
    as (Es & _ & Eu & _).
  destruct (undoStack_pushUndo_top (set_state s e)) as [rest Etop].
  rewrite Etop in Eu. cbn [set_state state] in Eu.
  destruct (undo_top _ _ _ Eu) as (Us & _).
  rewrite Es, Us.
  assert (Em : shell_material s = value).
  { subst s. cbn [shell_material set_shell_material].
    destruct (String.eqb value "steel"); [reflexivity|].
    destruct (String.eqb value "stainless"); [reflexivity|].
    destruct (String.eqb value "aluminum"); reflexivity. }
  split; [exact Em|].
  subst s. cbn [shell_material set_shell_material].
  split; [intros ->; reflexivity|].
  split; [intros ->; reflexivity|].
  split; [intros ->; reflexivity|]. reflexivity.
Qed.

Lemma shell_material_change_not_undoable_witness :
  shell_material (state (fst (shellMaterialChange "aluminum" initial))) = "aluminum" /\
  state (undo (fst (shellMaterialChange "aluminum" initial))) =
    state (fst (shellMaterialChange "aluminum" initial)).
Proof.
  destruct (shell_material_change_not_undoable initial "aluminum" eq_refl)
    as (Em & _ & _ & _ & Eu).
  split; [exact Em | exact Eu].
Defined.

(** X9.  On a configuration the validator accepts, the fill-percentage
    handler commits every number it is given, clamped into the range 0 to
    100; nothing else changes, and [undo] brings the previous configuration
    back. *)
Theorem fill_percentage_change (e : Engine) (v : Q) :
  validateCandidate (state e) = Valid ->
  state (fillPercChange v e) =
    set_fill_percentage (Math_max 0 (Math_min 100 v)) (state e) /\
  0 <= fill_percentage (state (fillPercChange v e)) <= 100 /\
  state (undo (fillPercChange v e)) = state e.
Proof.
  intros Hv. unfold fillPercChange, deepClone.
  set (s := set_fill_percentage (Math_max 0 (Math_min 100 v)) (state e)).
  assert (Hs : validateCandidate s = Valid).
  { apply (validateCandidate_same_geometry s (state e)); [|exact Hv].
    repeat split; reflexivity. }
  destruct (commitState_valid e s "Changed fill percentage." Hs) as (Es & _ & Eu & _).
  destruct (undoStack_pushUndo_top e) as [rest Etop]. rewrite Etop in Eu.
  destruct (undo_top _ _ _ Eu) as (Us & _).
  rewrite Es, Us. split; [reflexivity|]. split; [|reflexivity].
  subst s. cbn [fill_percentage set_fill_percentage]. split_minmax; lra.
Qed.

Lemma fill_percentage_change_witness :
  state (fillPercChange 250 initial) =
    set_fill_percentage (Math_max 0 (Math_min 100 250)) (state initial) /\
  0 <= fill_percentage (state (fillPercChange 250 initial)) <= 100 /\
  state (undo (fillPercChange 250 initial)) = state initial.
Proof. apply (fill_percentage_change initial 250). reflexivity. Defined.

(* ------------------------------------------------------------------ *)
(** ** Persistence *)
(* ------------------------------------------------------------------ *)

Lemma last_saved_app (t u : list Effect) :
  last_saved (t ++ u) =
  match last_saved u with Some c => Some c | None => last_saved t end.
Proof.
  induction t as [|x t IH]; cbn [app last_saved].
  - destruct (last_saved u); reflexivity.
  - rewrite IH. destruct (last_saved u); reflexivity.
Qed.

Lemma last_saved_emit (x : Effect) (e : Engine) :
  last_saved (trace (emit x e)) =
  match x with SaveState c => Some c | _ => last_saved (trace e) end.
Proof.
  cbn [emit trace]. rewrite last_saved_app. destruct x; reflexivity.
Qed.




(* ------------------------------------------------------------------ *)
(** ** Loading and importing *)
(* ------------------------------------------------------------------ *)

(** X11.  When the storage holds nothing, the empty text, or a text that
    [JSON.parse] rejects, [loadState] falls back to the defaults for both
    the live and the last valid configuration, and leaves the history
    stacks and the pending decision alone. *)
Theorem loadState_falls_back (JSON_parse : string -> option JsValue)
    (raw : option string) (e : Engine) :
  (raw = None \/ raw = Some EmptyString \/
   exists text, raw = Some text /\ JSON_parse text = None) ->
  state (loadState JSON_parse raw e) = DEFAULTS /\
  lastValidState (loadState JSON_parse raw e) = DEFAULTS /\
  undoStack (loadState JSON_parse raw e) = undoStack e /\
  redoStack (loadState JSON_parse raw e) = redoStack e /\
  pendingFixIgnore (loadState JSON_parse raw e) = pendingFixIgnore e.
Proof.
  intros [->|[->|(text & -> & Hp)]]; unfold loadState.
  - repeat split; reflexivity.
  - cbn [String.eqb]. repeat split; reflexivity.
  - destruct (String.eqb text EmptyString); [repeat split; reflexivity|].
    rewrite Hp. repeat split; reflexivity.
Qed.

Lemma loadState_falls_back_witness :
  state (loadState Json.parse (Some "{L_rect:1200")
           (commitState (set_t_wall 8 DEFAULTS) "Changed t_wall." initial)) = DEFAULTS.
Proof.
  apply (loadState_falls_back Json.parse (Some "{L_rect:1200")
           (commitState (set_t_wall 8 DEFAULTS) "Changed t_wall." initial)).
  right. right. exists "{L_rect:1200". split; reflexivity.
Defined.







(* ------------------------------------------------------------------ *)
(** ** Centres of gravity, fill and pockets *)
(* ------------------------------------------------------------------ *)

Lemma Qmult3_pos (a b c : Q) : 0 < a -> 0 < b -> 0 < c -> 0 < a * b * c.
Proof.
  intros Ha Hb Hc.
  assert (Hab : 0 < a * b) by (apply Qmult_lt_0_compat; assumption).
  apply Qmult_lt_0_compat; assumption.
Qed.





(** X16.  The fill volume never exceeds the cavity: for every
    configuration it lies between 0 and the cavity volume, it is 0 for a
    fill percentage of 0 or less, and the whole cavity for 100 or more. *)
Theorem fill_volume_within_cavity (c : Config) :
  0 <= V_fill (computeVolumesAndMasses c) <= V_internal (computeVolumesAndMasses c) /\
  (fill_percentage c <= 0 -> V_fill (computeVolumesAndMasses c) == 0) /\
  (100 <= fill_percentage c ->
   V_fill (computeVolumesAndMasses c) == V_internal (computeVolumesAndMasses c)).
Proof.
  cbn [computeVolumesAndMasses V_fill V_internal]. unfold loc_V_fill.
  pose proof (V_internal_nonneg c) as Hi. pose proof (fillFrac_range c) as [Hf0 Hf1].
  split; [split|split].
  - apply Qmult_le_0_compat; assumption.
  - nra.
  - intros Hle. assert (E : fillFrac c == 0).
    { unfold fillFrac. revert Hle. div_consts. intros Hle. split_minmax; lra. }
    rewrite E. ring.
  - intros Hge. assert (E : fillFrac c == 1).
    { unfold fillFrac. revert Hge. div_consts. intros Hge. split_minmax; lra. }
    rewrite E. ring.
Qed.

Lemma fill_volume_within_cavity_witness :
  V_fill (computeVolumesAndMasses (set_fill_percentage 250 DEFAULTS)) ==
  V_internal (computeVolumesAndMasses (set_fill_percentage 250 DEFAULTS)).
Proof.
  destruct (fill_volume_within_cavity (set_fill_percentage 250 DEFAULTS)) as (_ & _ & Hfull).
  apply Hfull. vm_compute. discriminate.
Defined.

(** X17.  The calculator's own pocket test never fails on a configuration
    the validator accepts: with a frame, the deduction for the two pockets
    is always taken, [2 L W_pocket H_pocket] in metres. *)
Theorem valid_frame_deducts_pockets (c : Config) :
  validateCandidate c = Valid ->
  include_frame c = true ->
  V_pockets c =
    2 * (mmToM (L_rect c) * mmToM (W_pocket c) * mmToM (H_pocket c)).
Proof.
  intros Hv Hfr.
  assert (Hp : violates PocketWidth c = false)
    by (apply validateCandidate_Valid_iff; exact Hv).
  unfold violates, invariant in Hp. rewrite Hfr in Hp. cbn [implb] in Hp.
  apply negb_false_iff in Hp. js_props.
  unfold V_pockets. rewrite Hfr. cbv zeta.
  destruct (js_le (2 * loc_Wp c + loc_Sp c)
                  (loc_W c - 2 * loc_minMargin + (1 # 1000000))) eqn:Fit.
  - reflexivity.
  - exfalso. js_props. revert Fit.
    unfold loc_W, loc_Wp, loc_Sp, loc_minMargin, mmToM. div_consts. intros Fit. lra.
Qed.

Lemma valid_frame_deducts_pockets_witness :
  V_pockets DEFAULTS =
    2 * (mmToM (L_rect DEFAULTS) * mmToM (W_pocket DEFAULTS) * mmToM (H_pocket DEFAULTS)).
Proof. apply (valid_frame_deducts_pockets DEFAULTS); reflexivity. Defined.

(* ------------------------------------------------------------------ *)
(** ** Collision polling *)
(* ------------------------------------------------------------------ *)

Section CollisionFacts.
Variable Box3 : Type.
Variable intersectsBox : Box3 -> Box3 -> bool.
Variable intersect : Box3 -> Box3 -> Box3.
Variable getSize : Box3 -> Point.
Variable getCenter : Box3 -> Point.

Abbreviation poll := (updateCollisions Box3 intersectsBox intersect getSize getCenter).
Abbreviation first_of := (firstIntersection Box3 intersectsBox intersect getSize).

Lemma firstIntersection_positive (boxContainer : Box3) (importedObjects : list Box3)
    (inter : Box3) :
  first_of boxContainer importedObjects = Some inter ->
  0 < pt_x (getSize inter) /\ 0 < pt_y (getSize inter) /\ 0 < pt_z (getSize inter).
Proof.
  unfold firstIntersection.
  assert (Hgen : forall (acc : option Box3),
            (forall b, acc = Some b ->
               0 < pt_x (getSize b) /\ 0 < pt_y (getSize b) /\ 0 < pt_z (getSize b)) ->
            forall b,
              fold_left
                (fun (first : option Box3) (box : Box3) =>
                   if intersectsBox boxContainer box then
                     let inter := intersect boxContainer box in
                     let size := getSize inter in
                     if js_gt (pt_x size) 0 && js_gt (pt_y size) 0 && js_gt (pt_z size) 0 &&
                        match first with None => true | Some _ => false end
                     then Some inter else first
                   else first)
                importedObjects acc = Some b ->
              0 < pt_x (getSize b) /\ 0 < pt_y (getSize b) /\ 0 < pt_z (getSize b)).
  { induction importedObjects as [|box rest IH]; intros acc Hacc b; cbn [fold_left].
    - apply Hacc.
    - apply IH. intros b'.
      destruct (intersectsBox boxContainer box); [|apply Hacc].
      cbv zeta.
      destruct (js_gt (pt_x (getSize (intersect boxContainer box))) 0 &&
                js_gt (pt_y (getSize (intersect boxContainer box))) 0 &&
                js_gt (pt_z (getSize (intersect boxContainer box))) 0 &&
                match acc with None => true | Some _ => false end) eqn:G;
        [|apply Hacc].
      intros Eb. injection Eb as <-. js_props. repeat split; assumption. }
  apply Hgen. intros b Eb. discriminate Eb.
Qed.

(** The three outcomes of one poll. *)
Lemma poll_logs_positive_overlap_parts (containerGroup : option Box3)
    (importedObjects : list Box3) (s : Overlap) :
  (collisionLog (poll containerGroup importedObjects s) = collisionLog s /\
   lastCollisionVolume (poll containerGroup importedObjects s) = lastCollisionVolume s) \/
  (collisionLog (poll containerGroup importedObjects s) = (collisionLog s ++ [LogCleared])%list /\
   0 < lastCollisionVolume s /\
   lastCollisionVolume (poll containerGroup importedObjects s) = 0) \/
  (exists dx dy dz : Q,
     collisionLog (poll containerGroup importedObjects s) =
       (collisionLog s ++ [LogCollision (dx * 1000) (dy * 1000) (dz * 1000)
                                        (dx * dy * dz * 1000)])%list /\
     0 < dx /\ 0 < dy /\ 0 < dz /\ 0 < dx * dy * dz /\
     lastCollisionVolume (poll containerGroup importedObjects s) = dx * dy * dz).
Proof.
  unfold updateCollisions. destruct containerGroup as [boxContainer|];
    [|left; split; reflexivity].
  destruct (first_of boxContainer importedObjects) as [inter|] eqn:F.
  - destruct (firstIntersection_positive _ _ _ F) as (Hx & Hy & Hz). cbv zeta.
    destruct (js_gt _ (1 # 1000000)).
    + right. right.
      exists (pt_x (getSize inter)), (pt_y (getSize inter)), (pt_z (getSize inter)).
      cbn [collisionLog lastCollisionVolume].
      repeat split; try assumption. apply Qmult3_pos; assumption.
    + left. split; reflexivity.
  - cbv zeta. destruct (js_gt (lastCollisionVolume s) 0) eqn:G.
    + right. left. js_props. repeat split; assumption.
    + left. split; reflexivity.
Qed.

(** X18.  One poll appends at most one message.  A collision message is
    appended only for an overlap whose three extents and whose volume are
    positive, and it sets the remembered volume to that volume;
    [Collision cleared.] is appended only when the remembered volume was
    positive, and it sets the remembered volume to 0. *)
Theorem poll_logs_positive_overlap (containerGroup : option Box3)
    (importedObjects : list Box3) (s : Overlap) :
  (collisionLog (poll containerGroup importedObjects s) = collisionLog s /\
   lastCollisionVolume (poll containerGroup importedObjects s) = lastCollisionVolume s) \/
  (collisionLog (poll containerGroup importedObjects s) = (collisionLog s ++ [LogCleared])%list /\
   0 < lastCollisionVolume s /\
   lastCollisionVolume (poll containerGroup importedObjects s) = 0) \/
  (exists dx dy dz : Q,
     collisionLog (poll containerGroup importedObjects s) =
       (collisionLog s ++ [LogCollision (dx * 1000) (dy * 1000) (dz * 1000)
                                        (dx * dy * dz * 1000)])%list /\
     0 < dx /\ 0 < dy /\ 0 < dz /\ 0 < dx * dy * dz /\
     lastCollisionVolume (poll containerGroup importedObjects s) = dx * dy * dz).
Proof. apply poll_logs_positive_overlap_parts. Qed.

(** X19.  A second poll over unchanged boxes changes nothing: neither the
    marker nor the remembered volume, and no message is logged again. *)
Theorem poll_idempotent (containerGroup : option Box3)
    (importedObjects : list Box3) (s : Overlap) :
  poll containerGroup importedObjects (poll containerGroup importedObjects s) =
  poll containerGroup importedObjects s.
Proof.
  unfold updateCollisions. destruct containerGroup as [boxContainer|]; [|reflexivity].
  destruct (first_of boxContainer importedObjects) as [inter|].
  - cbv zeta.
    set (volume := pt_x (getSize inter) * pt_y (getSize inter) * pt_z (getSize inter)).
    destruct (js_gt (Math_abs (volume - lastCollisionVolume s)) (1 # 1000000)) eqn:G.
    + cbn [lastCollisionVolume collisionLog].
      assert (G' : js_gt (Math_abs (volume - volume)) (1 # 1000000) = false).
      { apply js_gt_false. unfold Math_abs.
        assert (E : volume - volume == 0) by ring.
        rewrite E. cbn. discriminate. }
      rewrite G'. reflexivity.
    + cbn [lastCollisionVolume collisionLog]. rewrite G. reflexivity.
  - cbv zeta. destruct (js_gt (lastCollisionVolume s) 0) eqn:G.
    + cbn [lastCollisionVolume collisionLog collisionMarker].
      assert (G' : js_gt 0 0 = false) by reflexivity. rewrite G'.
      destruct (collisionMarker s); reflexivity.
    + cbn [lastCollisionVolume collisionLog collisionMarker]. rewrite G.
      destruct (collisionMarker s); reflexivity.
Qed.

Lemma orderly_app (l : list CollisionLog) (x : CollisionLog) (b : bool) :
  orderly b (l ++ [x]) =
  orderly b l &&
  match x with LogCleared => ends_with_collision b l | LogCollision _ _ _ _ => true end.
Proof.
  revert b. induction l as [|y l IH]; intros b.
  - cbn. destruct x; [reflexivity|]. destruct b; reflexivity.
  - cbn [app orderly]. destruct y.
    + rewrite IH. f_equal. destruct x; [reflexivity|].
      unfold ends_with_collision. cbn [rev].
      destruct (rev l) as [|z r] eqn:R; [reflexivity|].
      cbn [app]. reflexivity.
    + rewrite IH. rewrite <- andb_assoc. f_equal. f_equal.
      destruct x; [reflexivity|].
      unfold ends_with_collision. cbn [rev].
      destruct (rev l) as [|z r] eqn:R; [reflexivity|].
      cbn [app]. reflexivity.
Qed.

Lemma ends_with_collision_app (l : list CollisionLog) (x : CollisionLog) (b : bool) :
  ends_with_collision b (l ++ [x]) =
  match x with LogCleared => false | LogCollision _ _ _ _ => true end.
Proof.
  unfold ends_with_collision. rewrite rev_app_distr. cbn. destruct x; reflexivity.
Qed.

Lemma poll_invariant_step (containerGroup : option Box3)
    (importedObjects : list Box3) (s : Overlap) :
  poll_invariant s -> poll_invariant (poll containerGroup importedObjects s).
Proof.
  intros (Ho & Hn & He). unfold poll_invariant.
  destruct (poll_logs_positive_overlap_parts containerGroup importedObjects s)
    as [[El Ev]|[(El & Hpos & Ev)|(dx & dy & dz & El & _ & _ & _ & Hv & Ev)]];
    rewrite El, Ev.
  - repeat split; assumption.
  - rewrite orderly_app, Ho, (He Hpos). repeat split; [lra|].
    intros Habs. lra.
  - rewrite orderly_app, Ho, ends_with_collision_app. repeat split; lra.
Qed.

(** X20.  Through every sequence of frames, starting with no collision
    remembered, the collision log is orderly: each [Collision cleared.]
    comes right after a collision message, so it is never the first
    message and never repeated; and the remembered volume is never
    negative. *)
Theorem collision_log_orderly (frames : list (option Box3 * list Box3)) :
  orderly false
    (collisionLog (polls Box3 intersectsBox intersect getSize getCenter frames
                     initial_overlap)) = true /\
  0 <= lastCollisionVolume
         (polls Box3 intersectsBox intersect getSize getCenter frames initial_overlap).
Proof.
  assert (Hinv : poll_invariant initial_overlap).
  { repeat split; cbn; [discriminate|]. intros Habs. discriminate Habs. }
  revert Hinv. generalize initial_overlap.
  induction frames as [|f frames IH]; intros s Hinv; cbn [polls fold_left].
  - destruct Hinv as (Ho & Hn & _). split; assumption.
  - apply IH, poll_invariant_step, Hinv.
Qed.
End CollisionFacts.

(** The two sample frames with the boxes of three.js: the overlap of
    0.2 x 0.2 x 0.2 m is logged once, as 200 x 200 x 200 mm and 8 litres,
    then cleared. *)
Example collision_logged_then_cleared :
  firstIntersection Box3.t Box3.intersectsBox Box3.intersect Box3.getSize
    container_box [distant_box; touching_box] =
    Some (Box3.intersect container_box touching_box) /\
  exists dx dy dz v,
    collisionLog (polls Box3.t Box3.intersectsBox Box3.intersect Box3.getSize
                    Box3.getCenter two_frames initial_overlap) =
      [LogCollision dx dy dz v; LogCleared] /\
    dx == 200 /\ dy == 200 /\ dz == 200 /\ v == 8.
Proof.
  split; [vm_compute; reflexivity|].
  do 4 eexists. split; [vm_compute; reflexivity|].
  repeat split; vm_compute; reflexivity.
Qed.

(* ------------------------------------------------------------------ *)
(** ** Keyboard movement *)
(* ------------------------------------------------------------------ *)

Lemma grid_step : mmToM 100 == 1 # 10.
Proof. reflexivity. Qed.

Lemma moving_key_cases (key : string) :
  existsb (String.eqb key) ["w"; "a"; "s"; "d"] = true ->
  key = "w" \/ key = "a" \/ key = "s" \/ key = "d".
Proof.
  cbn [existsb]. intros E.
  destruct (String.eqb_spec key "w") as [Ew|_]; [left; exact Ew|].
  destruct (String.eqb_spec key "a") as [Ea|_]; [right; left; exact Ea|].
  destruct (String.eqb_spec key "s") as [Es|_]; [right; right; left; exact Es|].
  destruct (String.eqb_spec key "d") as [Ed|_]; [right; right; right; exact Ed|].
  discriminate E.
Qed.

(** X21.  With snap-to-grid on, a movement key (W, A, S or D, in either
    case) leaves the selected object on the 100 mm grid in x and y,
    wherever it was before and whatever the step; its height is
    untouched. *)
Theorem snapped_move_lands_on_grid (s : Config) (e_key : string) (p : Point) :
  snap_to_grid s = true ->
  existsb (String.eqb (toLowerCase e_key)) ["w"; "a"; "s"; "d"] = true ->
  exists p', onKeyDown s e_key (Some p) = Some p' /\
             on_grid p' /\ pt_z p' = pt_z p.
Proof.
  intros Hsnap Hkey. unfold onKeyDown. rewrite Hkey, Hsnap. cbn [negb]. cbv zeta.
  eexists. split; [reflexivity|]. split.
  - unfold on_grid. cbn [pt_x pt_y]. unfold Math_round.
    eexists. eexists.
    split; (apply Qmult_comp; [reflexivity | exact grid_step]).
  - destruct (moving_key_cases _ Hkey) as [E|[E|[E|E]]]; rewrite E; reflexivity.
Qed.

Lemma snapped_move_lands_on_grid_witness :
  exists p', onKeyDown DEFAULTS "D" (Some (mkPoint (123 # 1000) (77 # 1000) (5 # 10))) = Some p' /\
             on_grid p' /\ pt_z p' = 5 # 10.
Proof.
  apply (snapped_move_lands_on_grid DEFAULTS "D" (mkPoint (123 # 1000) (77 # 1000) (5 # 10)));
    reflexivity.
Defined.

(* ------------------------------------------------------------------ *)
(** ** The older history: index and snapshots *)
(* ------------------------------------------------------------------ *)

Section OlderHistoryFacts.
Variable Params : Type.

Abbreviation hstack := (V3_1.historyStack Params).
Abbreviation hindex := (V3_1.historyIndex Params).
Abbreviation hparams := (V3_1.params Params).

Lemma nth_error_last {A} (l : list A) (x : A) :
  nth_error (l ++ [x]) (List.length l) = Some x.
Proof. rewrite nth_error_app2; [|lia]. rewrite Nat.sub_diag. reflexivity. Qed.

Lemma pushHistory_newest (h : V3_1.App Params) :
  history_wf h ->
  history_wf (V3_1.pushHistory Params h) /\
  hindex (V3_1.pushHistory Params h) =
    (Z.of_nat (List.length (hstack (V3_1.pushHistory Params h))) - 1)%Z /\
  nth_error (hstack (V3_1.pushHistory Params h))
            (Z.to_nat (hindex (V3_1.pushHistory Params h))) = Some (hparams h).
Proof.
  intros ((Hlo & Hhi) & Hlen & Hflag). unfold history_wf, V3_1.pushHistory.
  rewrite Hflag.
  set (stack := if (_ <? _)%Z then _ else _).
  assert (Hs : List.length stack = Z.to_nat (hindex h + 1)).
  { subst stack. destruct (hindex h <? Z.of_nat (List.length (hstack h)) - 1)%Z eqn:C.
    - unfold V3_1.slice0.
      destruct (hindex h + 1 <? 0)%Z eqn:N; [apply Z.ltb_lt in N; lia|].
      rewrite length_firstn. apply Z.ltb_lt in C. lia.
    - apply Z.ltb_ge in C. lia. }
  cbv zeta. unfold push, shift.
  destruct (20 <? List.length (stack ++ [hparams h]))%nat eqn:Over;
    cbn [V3_1.historyStack V3_1.historyIndex V3_1.isUndoRedo V3_1.params].
  - apply Nat.ltb_lt in Over. rewrite length_app in Over. cbn [List.length] in Over.
    destruct stack as [|a l]; cbn [List.length app tl] in *; [lia|].
    rewrite length_app. cbn [List.length].
    repeat split; try lia.
    replace (Z.to_nat (hindex h + 1 - 1)) with (List.length l) by lia.
    apply nth_error_last.
  - apply Nat.ltb_ge in Over. rewrite length_app in *. cbn [List.length] in *.
    repeat split; try lia.
    replace (Z.to_nat (hindex h + 1)) with (List.length stack) by lia.
    apply nth_error_last.
Qed.

Lemma pushHistory_points_at_newest_parts (h : V3_1.App Params) :
  history_wf h ->
  history_wf (V3_1.pushHistory Params h) /\
  hindex (V3_1.pushHistory Params h) =
    (Z.of_nat (List.length (hstack (V3_1.pushHistory Params h))) - 1)%Z.
Proof.
  intros Hwf. destruct (pushHistory_newest h Hwf) as (Hw & Ei & _). split; assumption.
Qed.

(** X24.  On a well-formed history, [pushHistory] keeps it well formed (20
    snapshots at most, the index inside the array) and leaves the index on
    the newest snapshot, which is the current [params]. *)
Theorem pushHistory_points_at_newest (h : V3_1.App Params) :
  history_wf h ->
  history_wf (V3_1.pushHistory Params h) /\
  hindex (V3_1.pushHistory Params h) =
    (Z.of_nat (List.length (hstack (V3_1.pushHistory Params h))) - 1)%Z /\
  nth_error (hstack (V3_1.pushHistory Params h))
            (Z.to_nat (hindex (V3_1.pushHistory Params h))) = Some (hparams h).
Proof. apply pushHistory_newest. Qed.

(** X25.  On a well-formed history with something to undo, the older
    [undo] steps the index back and loads that snapshot, and [redo] then
    returns to the index and the snapshot it started from; the array is
    the same throughout. *)
Theorem older_undo_then_redo (h : V3_1.App Params) :
  history_wf h ->
  (0 < hindex h)%Z ->
  hindex (V3_1.undo Params h) = (hindex h - 1)%Z /\
  Some (hparams (V3_1.undo Params h)) =
    nth_error (hstack h) (Z.to_nat (hindex h - 1)) /\
  hindex (V3_1.redo Params (V3_1.undo Params h)) = hindex h /\
  Some (hparams (V3_1.redo Params (V3_1.undo Params h))) =
    nth_error (hstack h) (Z.to_nat (hindex h)) /\
  hstack (V3_1.redo Params (V3_1.undo Params h)) = hstack h.
Proof.
  intros ((Hlo & Hhi) & Hlen & Hflag) Hpos.
  unfold V3_1.undo. apply Z.ltb_lt in Hpos. rewrite Hpos. apply Z.ltb_lt in Hpos.
  cbv zeta.
  destruct (nth_error (hstack h) (Z.to_nat (hindex h - 1))) as [p|] eqn:N1.
  2:{ apply nth_error_None in N1. lia. }
  cbn [V3_1.historyIndex V3_1.params V3_1.historyStack].
  unfold V3_1.redo. cbn [V3_1.historyIndex V3_1.params V3_1.historyStack].
  assert (C : (hindex h - 1 <? Z.of_nat (List.length (hstack h)) - 1)%Z = true)
    by (apply Z.ltb_lt; lia).
  rewrite C. cbv zeta.
  replace (hindex h - 1 + 1)%Z with (hindex h) by lia.
  assert (Nn : (hindex h <? 0)%Z = false) by (apply Z.ltb_ge; lia).
  rewrite Nn.
  destruct (nth_error (hstack h) (Z.to_nat (hindex h))) as [q|] eqn:N2.
  2:{ apply nth_error_None in N2. lia. }
  cbn [V3_1.historyIndex V3_1.params V3_1.historyStack].
  repeat split; reflexivity.
Qed.

(** X26.  A snapshot pushed after an [undo] discards what was undone: the
    array is cut after the index before the push, so a [redo] right after
    the push does nothing. *)
Theorem older_push_after_undo_drops_redo (h : V3_1.App Params) :
  history_wf h ->
  V3_1.redo Params (V3_1.pushHistory Params h) = V3_1.pushHistory Params h.
Proof.
  intros Hwf.
  destruct (pushHistory_points_at_newest_parts h Hwf) as (_ & Ei).
  unfold V3_1.redo. rewrite Ei. rewrite Z.ltb_irrefl. reflexivity.
Qed.
End OlderHistoryFacts.

Lemma three_snapshots_wf : history_wf three_snapshots.
Proof. unfold history_wf, three_snapshots. cbn. repeat split; lia. Qed.

Lemma pushHistory_points_at_newest_witness :
  history_wf (V3_1.pushHistory nat three_snapshots) /\
  V3_1.historyIndex nat (V3_1.pushHistory nat three_snapshots) =
    (Z.of_nat (List.length
       (V3_1.historyStack nat (V3_1.pushHistory nat three_snapshots))) - 1)%Z /\
  nth_error (V3_1.historyStack nat (V3_1.pushHistory nat three_snapshots))
    (Z.to_nat (V3_1.historyIndex nat (V3_1.pushHistory nat three_snapshots))) =
    Some 7%nat.
Proof.
  apply (pushHistory_points_at_newest nat three_snapshots).
  unfold history_wf, three_snapshots. cbn. repeat split; lia.
Defined.

Lemma older_undo_then_redo_witness :
  V3_1.historyIndex nat (V3_1.undo nat three_snapshots) = (1 - 1)%Z /\
  Some (V3_1.params nat (V3_1.undo nat three_snapshots)) = Some 1%nat /\
  V3_1.historyIndex nat (V3_1.redo nat (V3_1.undo nat three_snapshots)) = 1%Z /\
  Some (V3_1.params nat (V3_1.redo nat (V3_1.undo nat three_snapshots))) =
    Some 2%nat /\
  V3_1.historyStack nat (V3_1.redo nat (V3_1.undo nat three_snapshots)) =
    [1%nat; 2%nat; 3%nat].
Proof.
  apply (older_undo_then_redo nat three_snapshots).
  - unfold history_wf, three_snapshots. cbn. repeat split; lia.
  - cbn. lia.
Defined.

Lemma older_push_after_undo_drops_redo_witness :
  V3_1.redo nat (V3_1.pushHistory nat three_snapshots) =
  V3_1.pushHistory nat three_snapshots /\
  V3_1.historyStack nat (V3_1.pushHistory nat three_snapshots) =
    [1%nat; 2%nat; 7%nat].
Proof.
  split; [|reflexivity].
  apply (older_push_after_undo_drops_redo nat three_snapshots).
  unfold history_wf, three_snapshots. cbn. repeat split; lia.
Defined.

(* ------------------------------------------------------------------ *)
(** ** The older validator, and remedies that cannot fit *)
(* ------------------------------------------------------------------ *)

(** X27.  The older [validateState] runs four of the six checks
    (positivity, wall thickness, pocket width, lid hole) in the same
    relative order, with the same remedies and field lists and its own
    messages; every candidate the current validator accepts is accepted by
    the older one as well. *)
Theorem older_validator_four_checks (c : Config) :
  V1_0.validateState c =
    match find (fun k => violates k c)
               [Positivity; WallThickness; PocketWidth; LidHole] with
    | Some k => Invalid (V1_0.messages k) (fun _ => remedy k c) (fields_of k)
    | None => Valid
    end /\
  (validateCandidate c = Valid -> V1_0.validateState c = Valid).
Proof.
  split; [apply validateState_find|].
  intros Hv. rewrite validateState_find.
  assert (Hall : forall k, violates k c = false)
    by (apply validateCandidate_Valid_iff; exact Hv).
  unfold V1_0.check_order, find. rewrite !Hall. reflexivity.
Qed.

Lemma older_validator_four_checks_witness :
  V1_0.validateState DEFAULTS = Valid.
Proof.
  destruct (older_validator_four_checks DEFAULTS) as [_ Hacc].
  apply Hacc. reflexivity.
Defined.



(** X29.  Whenever the validator reports the lid hole, the remedied
    candidate validates at the first retry: the lid is checked last, and
    its remedy assigns the largest radius allowed. *)
Theorem lid_hole_remedy_always_valid (c : Config) :
  validateCandidate c = failure LidHole c ->
  revalidate c = Valid /\
  r_hole (apply_fix (validateCandidate c) c) ==
    Math_max 20 (Math_min (W c / 2 - lid_edge_length c)
                          (L_rect c / 2 - lid_edge_length c)).
Proof.
  intros E. split; [apply lid_hole_remedy_valid, E|].
  rewrite E. cbn [failure apply_fix remedy]. reflexivity.
Qed.

Lemma lid_hole_remedy_always_valid_witness :
  revalidate wide_hole = Valid /\
  r_hole (apply_fix (validateCandidate wide_hole) wide_hole) ==
    Math_max 20 (Math_min (W wide_hole / 2 - lid_edge_length wide_hole)
                          (L_rect wide_hole / 2 - lid_edge_length wide_hole)).
Proof. apply (lid_hole_remedy_always_valid wide_hole). reflexivity. Defined.
